(** * jupyter_drives/handlers.py: request handlers of the jupyter-drives
      server extension, embedded in Rocq.

    The module defines a base API handler ([write_error], the memoized
    [url2localpath]), the list and mount handlers, and [setup_handlers].
    Python [str] is modelled as [string] (a sequence of bytes, the UTF-8
    encoding of the text); dictionaries with string keys as [gmap string _];
    raising code returns a value of [Exc]. The operating system is POSIX
    ([os.path] is [posixpath], the separator is "/"). *)

From stdpp Require Import base option list strings gmap.
From Stdlib Require Import ZArith Ascii String Lia.

Set Warnings "-register-all".

Local Open Scope string_scope.

(** ** Python string primitives used by the module and its libraries *)

Module Py.

Definition sep : ascii := "/"%char.

(** [s.startswith(c)] and [s.endswith(c)] for a one-character [c]. *)
Definition startswith_char (c : ascii) (s : string) : bool :=
  match s with
  | String a _ => Ascii.eqb a c
  | EmptyString => false
  end.

Fixpoint endswith_char (c : ascii) (s : string) : bool :=
  match s with
  | EmptyString => false
  | String a EmptyString => Ascii.eqb a c
  | String _ r => endswith_char c r
  end.

(** [s.split(c)]: the first field and the later ones; the result of
    Python's [split] with a separator is never the empty list. *)
Fixpoint split_char (c : ascii) (s : string) : string * list string :=
  match s with
  | EmptyString => (EmptyString, [])
  | String a r =>
      let '(h, t) := split_char c r in
      if Ascii.eqb a c then (EmptyString, h :: t) else (String a h, t)
  end.

Definition split (c : ascii) (s : string) : list string :=
  let '(h, t) := split_char c s in h :: t.

(** [c.join(l)] *)
Fixpoint join (c : string) (l : list string) : string :=
  match l with
  | [] => EmptyString
  | [x] => x
  | x :: r => x +:+ c +:+ join c r
  end.

(** [s.lstrip(c)], [s.rstrip(c)], [s.strip(c)] for a one-character [c]. *)
Fixpoint lstrip_char (c : ascii) (s : string) : string :=
  match s with
  | String a r => if Ascii.eqb a c then lstrip_char c r else s
  | EmptyString => EmptyString
  end.

Fixpoint rstrip_char (c : ascii) (s : string) : string :=
  match s with
  | EmptyString => EmptyString
  | String a r =>
      match rstrip_char c r with
      | EmptyString => if Ascii.eqb a c then EmptyString else String a EmptyString
      | r' => String a r'
      end
  end.

Definition strip_char (c : ascii) (s : string) : string :=
  rstrip_char c (lstrip_char c s).

(** [''.join(l)] *)
Definition concat (l : list string) : string := join EmptyString l.

End Py.

(** ** urllib.parse.unquote, on the byte level

    [unquote] replaces every "%XY" with two hexadecimal digits by the byte
    it denotes and leaves any other "%" in place. (Python then decodes the
    bytes as UTF-8; on the UTF-8 byte model of [str] used here that decoding
    is the identity for well-formed input.) *)

Module Urllib.

Definition hexval (c : ascii) : option N :=
  let n := N_of_ascii c in
  if (48 <=? n)%N && (n <=? 57)%N then Some (n - 48)%N
  else if (65 <=? n)%N && (n <=? 70)%N then Some (n - 55)%N
  else if (97 <=? n)%N && (n <=? 102)%N then Some (n - 87)%N
  else None.

Fixpoint unquote (s : string) : string :=
  match s with
  | EmptyString => EmptyString
  | String c r =>
      if Ascii.eqb c "%"%char then
        match r with
        | String h (String l r') =>
            match hexval h, hexval l with
            | Some hv, Some lv =>
                String (ascii_of_N (16 * hv + lv)) (unquote r')
            | _, _ => String c (unquote r)
            end
        | _ => String c (unquote r)
        end
      else String c (unquote r)
  end.

End Urllib.

(** ** posixpath: join, expanduser, normpath *)

Module OsPath.

(** One round of the loop of [posixpath.join]. *)
Definition join_step (path b : string) : string :=
  if Py.startswith_char Py.sep b then b
  else if String.eqb path "" || Py.endswith_char Py.sep path then path +:+ b
  else path +:+ "/" +:+ b.

(** [os.path.join(a, *p)] *)
Definition join (a : string) (p : list string) : string :=
  fold_left join_step p a.

(** What [expanduser] reads from the process: [os.environ.get('HOME')],
    the home directory of the current user in the password database, and
    [pwd.getpwnam(name).pw_dir]. *)
Record Environ := {
  env_HOME : option string;
  pw_self : option string;
  pw_dir : string -> option string;
}.

(** [path.find('/', 1)] with [len(path)] when there is none, given the
    part of the path after its first character; the result counts from
    the start of the path. *)
Fixpoint find_sep_from (i : nat) (s : string) : nat :=
  match s with
  | EmptyString => i
  | String a r => if Ascii.eqb a Py.sep then i else find_sep_from (S i) r
  end.

Definition expanduser (env : Environ) (path : string) : string :=
  match path with
  | String a rest =>
      if Ascii.eqb a "~"%char then
        let i := find_sep_from 1 rest in
        let userhome :=
          if Nat.eqb i 1 then
            match env_HOME env with
            | Some h => Some h
            | None => pw_self env
            end
          else pw_dir env (String.substring 1 (i - 1) path) in
        match userhome with
        | None => path
        | Some h =>
            let r := Py.rstrip_char Py.sep h
                     +:+ String.substring i (String.length path - i) path in
            if String.eqb r "" then "/" else r
        end
      else path
  | EmptyString => path
  end.

(** The loop of [posixpath.normpath] over the components; [new_comps] is
    kept reversed (its last element first). *)
Fixpoint norm_comps (initial_slashes : nat) (comps : list string)
    (new_comps : list string) : list string :=
  match comps with
  | [] => rev new_comps
  | comp :: r =>
      if String.eqb comp "" || String.eqb comp "." then
        norm_comps initial_slashes r new_comps
      else if negb (String.eqb comp "..")
              || (Nat.eqb initial_slashes 0 && bool_decide (new_comps = []))
              || match new_comps with
                 | last :: _ => String.eqb last ".."
                 | [] => false
                 end
      then norm_comps initial_slashes r (comp :: new_comps)
      else norm_comps initial_slashes r (tail new_comps)
  end.

Definition initial_slashes (path : string) : nat :=
  match path with
  | String a (String b (String c _)) =>
      if Ascii.eqb a Py.sep then
        if Ascii.eqb b Py.sep && negb (Ascii.eqb c Py.sep) then 2 else 1
      else 0
  | String a (String b EmptyString) =>
      if Ascii.eqb a Py.sep then if Ascii.eqb b Py.sep then 2 else 1 else 0
  | String a EmptyString => if Ascii.eqb a Py.sep then 1 else 0
  | EmptyString => 0
  end.

Definition normpath (path : string) : string :=
  if String.eqb path "" then "."
  else
    let n := initial_slashes path in
    let comps := norm_comps n (Py.split Py.sep path) [] in
    let p := Py.concat (replicate n "/") +:+ Py.join "/" comps in
    if String.eqb p "" then "." else p.

End OsPath.

(** ** jupyter_server.utils: url2path and url_path_join *)

Module JupyterUtils.

(** [url2path(url)]: percent-decode every "/"-separated piece, then join
    the pieces with [os.path.join]. *)
Definition url2path (url : string) : string :=
  let '(h, t) := Py.split_char Py.sep url in
  OsPath.join (Urllib.unquote h) (map Urllib.unquote t).

(** [url_path_join] applied to a non-empty argument list. *)
Definition url_path_join (first : string) (others : list string) : string :=
  let pieces := first :: others in
  let initial := Py.startswith_char Py.sep first in
  let final := Py.endswith_char Py.sep (List.last others first) in
  let stripped := map (Py.strip_char Py.sep) pieces in
  let result :=
    Py.join "/" (filter (fun s => s <> EmptyString) stripped) in
  let result := if initial then "/" +:+ result else result in
  let result := if final then result +:+ "/" else result in
  if String.eqb result "//" then "/" else result.

End JupyterUtils.

(** ** Values, exceptions and results *)

(** JSON values, as [json.loads] builds them and [json.dumps] prints them.
    An object lists the items of the Python dict in insertion order, with
    distinct keys. Numbers are the integers. *)
Inductive json : Type :=
| JNull
| JBool (b : bool)
| JNum (n : Z)
| JStr (s : string)
| JArr (l : list json)
| JObj (items : list (string * json)).

(** [d.get(key)] and [d[key] = v] on the items of a dict. *)
Fixpoint dict_get {A} (key : string) (items : list (string * A)) : option A :=
  match items with
  | [] => None
  | (k, v) :: r => if String.eqb k key then Some v else dict_get key r
  end.

Fixpoint dict_set {A} (key : string) (v : A) (items : list (string * A))
    : list (string * A) :=
  match items with
  | [] => [(key, v)]
  | (k, x) :: r =>
      if String.eqb k key then (k, v) :: r else (k, x) :: dict_set key v r
  end.

(** The text [json.dumps(v)]; the serialisation itself is left symbolic. *)
Inductive Text : Type :=
| json_dumps (v : json).

(** Exceptions: [tornado.web.HTTPError] (and its subclasses, which may
    carry an [error_code] attribute), or any other exception, given by the
    name of its type, [str(e)] and the formatted entries of its traceback
    (what [traceback.format_tb] returns). *)
Inductive Exception : Type :=
| HTTPError (status_code : Z) (reason : option string)
    (error_code : option json)
| PyError (exc_type : string) (exc_str : string) (tb : list string).

Definition is_HTTPError (e : Exception) : bool :=
  match e with
  | HTTPError _ _ _ => true
  | PyError _ _ _ => false
  end.

Definition nl : string := String (ascii_of_nat 10) EmptyString.

(** [traceback.format_exception(etype, value, tb)] for an exception that
    is not an HTTPError and has no cause or context. *)
Definition format_exception (exc_type exc_str : string) (tb : list string)
    : list string :=
  ("Traceback (most recent call last):" +:+ nl) :: tb ++
    [if String.eqb exc_str "" then exc_type +:+ nl
     else exc_type +:+ ": " +:+ exc_str +:+ nl].

(** The outcome of code that may raise. *)
Inductive Exc (A : Type) : Type :=
| Raise (e : Exception)
| Return (a : A).
Arguments Raise {A} e.
Arguments Return {A} a.

#[global] Instance Exc_ret : MRet Exc := fun A a => Return a.
#[global] Instance Exc_bind : MBind Exc := fun A B f m =>
  match m with
  | Raise e => Raise e
  | Return a => f a
  end.

(** ** Contents managers and the state url2localpath reads *)

(** Python objects are referred to by identity. *)
Definition ref := nat.
Definition Handler := nat.

(** A contents manager has a [root_dir] trait; a
    [hybridcontents.HybridContentsManager] also has the dict [managers] from
    path prefix to sub-manager. *)
Inductive ContentsManager : Type :=
| PlainContentsManager (root_dir : string)
| HybridContentsManager (root_dir : string) (managers : gmap string ref).

Definition root_dir (cm : ContentsManager) : string :=
  match cm with
  | PlainContentsManager r => r
  | HybridContentsManager r _ => r
  end.

(** The part of the hybridcontents package the module calls:
    [hybridcontents.hybridmanager._resolve_path(path, manager_dict)], which
    returns [(prefix, manager, manager_relative_path)] or raises. *)
Record Hybridcontents := {
  _resolve_path : string -> gmap string ref -> Exc (string * ref * string);
}.

(** What a call of url2localpath depends on besides its arguments: the
    module global [hybridcontents] ([None] when the import failed), the
    process environment read by [os.path.expanduser], the objects the
    references denote, and [self.contents_manager] of each handler. *)
Record World := {
  hybridcontents : option Hybridcontents;
  environ : OsPath.Environ;
  heap : ref -> ContentsManager;
  contents_manager : Handler -> ref;
}.

(** A model of the resolver of the hybridcontents package, for running the
    handlers on concrete composite managers: the path is normalised
    ([posixpath.normpath] of the path stripped of "/", rejected when it then
    starts with ".."), its first segment selects the sub-manager, and the
    manager registered under the empty prefix is the fallback. The
    resolver is decorated with [outside_root_to_404], which turns the
    rejection [PathOutsideRoot] into an HTTPError 404 (one without a
    reason, as is the one raised when no manager matches). *)
Module HybridManager.

Definition normalize_api_path (api_path : string) : Exc string :=
  let normalized := OsPath.normpath (Py.strip_char Py.sep api_path) in
  if String.eqb normalized "." then Return ""
  else if String.prefix ".." normalized
  then Raise (PyError "PathOutsideRoot" normalized [])
  else Return normalized.

(** The function under the decorator. *)
Definition resolve_path_wrapped (path : string)
    (manager_dict : gmap string ref) : Exc (string * ref * string) :=
  path ← normalize_api_path path;
  let '(first, rest) := Py.split_char Py.sep path in
  match manager_dict !! first with
  | Some mgr => Return (first, mgr, Py.join "/" rest)
  | None =>
      match manager_dict !! "" with
      | Some mgr => Return ("", mgr, path)
      | None => Raise (HTTPError 404 None None)
      end
  end.

(** [outside_root_to_404]: [except PathOutsideRoot] raises
    [HTTPError(404, message)]. *)
Definition outside_root_to_404 {A} (r : Exc A) : Exc A :=
  match r with
  | Raise (PyError ty _ _) =>
      if String.eqb ty "PathOutsideRoot" then Raise (HTTPError 404 None None)
      else r
  | _ => r
  end.

Definition resolve_path (path : string) (manager_dict : gmap string ref)
    : Exc (string * ref * string) :=
  outside_root_to_404 (resolve_path_wrapped path manager_dict).

Definition lib : Hybridcontents := {| _resolve_path := resolve_path |}.

End HybridManager.

(** ** JupyterDrivesAPIHandler.url2localpath *)

(** The value returned: [local_path], or [(local_path, cm)] when
    [with_contents_manager] is true. *)
Inductive Resolved : Type :=
| LocalPath (local_path : string)
| LocalPathCM (local_path : string) (cm : ref).

Definition local_path_of (r : Resolved) : string :=
  match r with
  | LocalPath p => p
  | LocalPathCM p _ => p
  end.

(** The function under the decorator (lines 55-72). *)
Definition url2localpath_wrapped (w : World) (self : Handler)
    (path : string) (with_contents_manager : bool) : Exc Resolved :=
  let cm := contents_manager w self in
  '(cm, path) ←
    match hybridcontents w, heap w cm with
    | Some lib, HybridContentsManager _ managers =>
        '(_, cm, path) ← _resolve_path lib path managers;
        Return (cm, path)
    | _, _ => Return (cm, path)
    end;
  let local_path :=
    OsPath.join (OsPath.expanduser (environ w) (root_dir (heap w cm)))
                [JupyterUtils.url2path path] in
  Return (if with_contents_manager then LocalPathCM local_path cm
          else LocalPath local_path).

(** ** functools.lru_cache *)

(** How [with_contents_manager] is passed decides the cache key
    ([functools._make_key] keeps positional and keyword arguments apart):
    [f(self, path)], [f(self, path, b)] or
    [f(self, path, with_contents_manager=b)]. *)
Inductive CwmArg : Type :=
| Omitted
| Positional (b : bool)
| Keyword (b : bool).

#[global] Instance CwmArg_eq_dec : EqDecision CwmArg.
Proof. solve_decision. Defined.

Definition cwm_value (a : CwmArg) : bool :=
  match a with
  | Omitted => false
  | Positional b => b
  | Keyword b => b
  end.

(** The key of a call: [self] (hashed by identity), the path, and the
    optional argument. *)
Definition Key : Type := Handler * string * CwmArg.

(** The cache: its entries from the most recently used to the least
    recently used one. *)
Definition Cache (K V : Type) : Type := list (K * V).

Section LruCache.
Context {K V : Type} `{EqDecision K}.

Fixpoint cache_get (k : K) (c : Cache K V) : option V :=
  match c with
  | [] => None
  | (k', v) :: r => if decide (k' = k) then Some v else cache_get k r
  end.

Fixpoint cache_remove (k : K) (c : Cache K V) : Cache K V :=
  match c with
  | [] => []
  | (k', v) :: r =>
      if decide (k' = k) then r else (k', v) :: cache_remove k r
  end.

(** One call of the wrapper that [lru_cache(maxsize)] builds around
    [user_function]: a hit moves the entry to the front; a miss calls
    the function and, when it returns, stores the result at the front,
    dropping the oldest entry of a full cache. An exception is not
    stored. *)
Definition lru_cache (maxsize : nat) (user_function : K -> Exc V)
    (c : Cache K V) (k : K) : Exc V * Cache K V :=
  match cache_get k c with
  | Some v => (Return v, (k, v) :: cache_remove k c)
  | None =>
      match user_function k with
      | Raise e => (Raise e, c)
      | Return v =>
          (Return v,
           if (List.length c <? maxsize)%nat then (k, v) :: c
           else (k, v) :: removelast c)
      end
  end.
End LruCache.

(** [functools.lru_cache()] uses [maxsize=128]. *)
Definition default_maxsize : nat := 128.

(** The undecorated function applied to the arguments of a key. *)
Definition url2localpath_uncached (w : World) (k : Key) : Exc Resolved :=
  let '(self, path, a) := k in
  url2localpath_wrapped w self path (cwm_value a).

(** The attribute [url2localpath] of the class: the wrapper, with one
    cache for all handler instances. *)
Definition url2localpath (w : World) (c : Cache Key Resolved)
    (k : Key) : Exc Resolved * Cache Key Resolved :=
  lru_cache default_maxsize (url2localpath_uncached w) c k.

(** A run of calls, each in the world of its moment: the results and the
    cache left behind. *)
Fixpoint run_calls (c : Cache Key Resolved) (calls : list (World * Key))
    : list (Exc Resolved) * Cache Key Resolved :=
  match calls with
  | [] => ([], c)
  | (w, k) :: r =>
      let '(res, c') := url2localpath w c k in
      let '(rs, c'') := run_calls c' r in
      (res :: rs, c'')
  end.

(** ** tornado.web.RequestHandler: the response under construction *)

(** The application settings the handlers read: [settings["base_url"]]
    (absent or a string) and tornado's debug switch [serve_traceback]. *)
Record Settings := {
  base_url : option string;
  serve_traceback : bool;
}.

Record RequestHandler := {
  settings : Settings;
  _status_code : Z;
  _headers : list (string * string);
  _write_buffer : list Text;
  _finished : bool;
}.

Definition new_handler (s : Settings) : RequestHandler :=
  {| settings := s; _status_code := 200; _headers := [];
     _write_buffer := []; _finished := false |}.

Definition set_header (name value : string) (h : RequestHandler)
    : RequestHandler :=
  {| settings := settings h; _status_code := _status_code h;
     _headers := dict_set name value (_headers h);
     _write_buffer := _write_buffer h; _finished := _finished h |}.

Definition set_status (status_code : Z) (h : RequestHandler)
    : RequestHandler :=
  {| settings := settings h; _status_code := status_code;
     _headers := _headers h;
     _write_buffer := _write_buffer h; _finished := _finished h |}.

(** [self.finish(chunk)], on a response that is not finished yet and
    whose status allows a body when one was written (tornado raises
    otherwise), and apart from the conditional answer 304 that tornado
    gives to a GET or HEAD with status 200. *)
Definition finish (chunk : option Text) (h : RequestHandler)
    : RequestHandler :=
  {| settings := settings h; _status_code := _status_code h;
     _headers := _headers h;
     _write_buffer := _write_buffer h ++ from_option (fun c => [c]) [] chunk;
     _finished := true |}.

(** [self.clear()]: back to the default status, headers and no body. *)
Definition clear (h : RequestHandler) : RequestHandler :=
  {| settings := settings h; _status_code := 200; _headers := [];
     _write_buffer := []; _finished := _finished h |}.

(** ** JupyterDrivesAPIHandler.write_error (lines 35-51) *)

(** The dict [reply] at line 51. *)
Definition write_error_reply (exc_info : option Exception)
    : list (string * json) :=
  let reply := [("error", JStr "Unhandled error")] in
  match exc_info with
  | Some e =>
      match e with
      | HTTPError _ reason error_code =>
          let reply :=
            dict_set "error" (from_option JStr JNull reason) reply in
          match error_code with
          | Some code => dict_set "error_code" code reply
          | None => reply
          end
      | PyError exc_type exc_str tb =>
          dict_set "error"
            (JStr (Py.concat (format_exception exc_type exc_str tb))) reply
      end
  | None => reply
  end.

Definition write_error (self : RequestHandler) (status_code : Z)
    (exc_info : option Exception) : RequestHandler :=
  let self := set_header "Content-Type" "application/json" self in
  let reply := write_error_reply exc_info in
  finish (Some (json_dumps (JObj reply))) self.

(** The status codes of responses that carry no body: 1xx, 204, 304. *)
Definition allows_body (status_code : Z) : bool :=
  negb ((100 <=? status_code)%Z && (status_code <? 200)%Z
        || (status_code =? 204)%Z || (status_code =? 304)%Z).

(** tornado's [send_error] and [_handle_request_exception]: an HTTPError
    is answered with its own status code, any other exception with 500;
    the body is written by [write_error], except for status 304. The
    handlers of this module never flush, so no header has been written
    when an error is sent; [tornado.web.Finish], which a handler raises to
    end a request without an error response, is not among the exceptions
    of this model. *)
Definition send_error (self : RequestHandler) (status_code : Z)
    (e : Exception) : RequestHandler :=
  let self := clear self in
  let self := set_status status_code self in
  let self :=
    if (status_code =? 304)%Z then self
    else write_error self status_code (Some e) in
  if _finished self then self else finish None self.

Definition _handle_request_exception (self : RequestHandler)
    (e : Exception) : RequestHandler :=
  if _finished self then self
  else
    match e with
    | HTTPError status_code _ _ => send_error self status_code e
    | PyError _ _ _ => send_error self 500 e
    end.

(** ** Requests and the manager interface *)

(** What [get_json_body] finds in the request: no body, a body that
    [json.loads] rejects, or a parsed value. *)
Inductive JsonBody : Type :=
| EmptyBody
| InvalidJson
| JsonValue (v : json).

Record Request := {
  current_user : bool;
  json_body : JsonBody;
}.

(** [jupyter_server.base.handlers.APIHandler.get_json_body]; Python's
    [None] is [JNull]. *)
Definition get_json_body (req : Request) : Exc json :=
  match json_body req with
  | EmptyBody => Return JNull
  | InvalidJson => Raise (HTTPError 400 None None)
  | JsonValue v => Return v
  end.

(** Truth value of a Python object in [if x:]. *)
Definition truthy (v : json) : bool :=
  match v with
  | JNull => false
  | JBool b => b
  | JNum n => negb (n =? 0)%Z
  | JStr s => negb (String.eqb s "")
  | JArr l => negb (bool_decide (l = []))
  | JObj items => negb (match items with [] => true | _ => false end)
  end.

(** [JupyterDrivesManager] (jupyter_drives/managers/manager.py), the
    interface of the backends: each call returns a result or raises and
    may change the state [MS] of the backend. *)
Record JupyterDrivesManager (MS : Type) := {
  list_drives : MS -> Exc json * MS;
  mount_drive : json -> string -> MS -> Exc json * MS;
  unmount_drive : json -> string -> MS -> Exc json * MS;
}.
Arguments list_drives {MS} _ _.
Arguments mount_drive {MS} _ _ _ _.
Arguments unmount_drive {MS} _ _ _ _.

(** The state a request runs in: the response under construction, the
    cache of url2localpath and the state of the manager. *)
Record ServerState (MS : Type) := {
  handler : RequestHandler;
  cache : Cache Key Resolved;
  manager_state : MS;
}.
Arguments handler {MS} _.
Arguments cache {MS} _.
Arguments manager_state {MS} _.

(** Code that reads and writes a state and may raise. *)
Definition Act (S A : Type) : Type := S -> Exc A * S.

#[global] Instance Act_ret {S} : MRet (Act S) := fun A a s => (Return a, s).
#[global] Instance Act_bind {S} : MBind (Act S) := fun A B f m s =>
  match m s with
  | (Raise e, s') => (Raise e, s')
  | (Return a, s') => f a s'
  end.

Definition lift {S A} (m : Exc A) : Act S A := fun s => (m, s).

(** ** MountJupyterDriveHandler.post (lines 94-106) *)

Section Handlers.
Context {MS : Type}.

(** The world of the request, the manager given to [initialize] and the
    formatted traceback entries Python records for an exception raised
    at a given line of handlers.py. *)
Variable w : World.
Variable _manager : JupyterDrivesManager MS.
Variable stack : nat -> list string.

(** [obj[key]] for a string key, at source line [line]. *)
Definition getitem (line : nat) (obj : json) (key : string) : Exc json :=
  match obj with
  | JObj items =>
      match dict_get key items with
      | Some v => Return v
      | None => Raise (PyError "KeyError" ("'" +:+ key +:+ "'") (stack line))
      end
  | JNull =>
      Raise (PyError "TypeError" "'NoneType' object is not subscriptable"
               (stack line))
  | JBool _ =>
      Raise (PyError "TypeError" "'bool' object is not subscriptable"
               (stack line))
  | JNum _ =>
      Raise (PyError "TypeError" "'int' object is not subscriptable"
               (stack line))
  | JStr _ =>
      Raise (PyError "TypeError" "string indices must be integers"
               (stack line))
  | JArr _ =>
      Raise (PyError "TypeError"
               "list indices must be integers or slices, not str"
               (stack line))
  end.

(** [json.dump(obj)]: [json.dump] has two required positional
    parameters, [obj] and [fp]; called with one it raises. *)
Definition dump_error (line : nat) : Exception :=
  PyError "TypeError" "dump() missing 1 required positional argument: 'fp'"
    (stack line).

Definition json_dump (line : nat) (obj : json) : Exc Text :=
  Raise (dump_error line).

(** [self.url2localpath(path)] *)
Definition call_url2localpath (self : Handler) (path : string)
    : Act (ServerState MS) Resolved := fun st =>
  let '(r, c) := url2localpath w (cache st) (self, path, Omitted) in
  (r, {| handler := handler st; cache := c;
         manager_state := manager_state st |}).

(** [await self._manager.mount_drive(...)] and [unmount_drive] *)
Definition call_manager (f : json -> string -> MS -> Exc json * MS)
    (drive_name : json) (local_path : string)
    : Act (ServerState MS) json := fun st =>
  let '(r, ms) := f drive_name local_path (manager_state st) in
  (r, {| handler := handler st; cache := cache st; manager_state := ms |}).

Definition call_finish (chunk : Text) : Act (ServerState MS) unit :=
  fun st =>
  (Return tt, {| handler := finish (Some chunk) (handler st);
                 cache := cache st; manager_state := manager_state st |}).

(** The method under [tornado.web.authenticated]. *)
Definition post_body (self : Handler) (req : Request) (path : string)
    : Act (ServerState MS) unit :=
  body ← lift (get_json_body req);
  drive_name ← lift (getitem 97 body "drive_name");
  mount_drive_ ← lift (getitem 98 body "mount_drive");
  local_path ← call_url2localpath self path;
  result ←
    (if truthy mount_drive_
     then call_manager (mount_drive _manager) drive_name
            (local_path_of local_path)
     else call_manager (unmount_drive _manager) drive_name
            (local_path_of local_path));
  chunk ← lift (json_dump 106 result);
  call_finish chunk.

(** [tornado.web.authenticated] around a POST method: without a
    current user the request is refused with 403. *)
Definition post (self : Handler) (req : Request) (path : string)
    : Act (ServerState MS) unit :=
  if current_user req then post_body self req path
  else lift (Raise (HTTPError 403 None None)).

(** tornado's [_execute] for a POST request: run the method and turn an
    exception it raises into an error response. *)
Definition execute_post (self : Handler) (req : Request) (path : string)
    (st : ServerState MS) : ServerState MS :=
  match post self req path st with
  | (Return _, st') =>
      if _finished (handler st') then st'
      else {| handler := finish None (handler st');
              cache := cache st'; manager_state := manager_state st' |}
  | (Raise e, st') =>
      {| handler := _handle_request_exception (handler st') e;
         cache := cache st'; manager_state := manager_state st' |}
  end.

(** ** ListJupyterDrivesHandler.get (lines 82-85), for an authenticated
    caller *)
Definition get_body : Act (ServerState MS) unit :=
  drives ← (fun st =>
    let '(r, ms) := list_drives _manager (manager_state st) in
    (r, {| handler := handler st; cache := cache st;
           manager_state := ms |}));
  call_finish (json_dumps drives).

End Handlers.

(** ** setup_handlers (lines 108-144) *)

Definition NAMESPACE : string := "jupyter-drives".

Inductive HandlerClass : Type :=
| ListJupyterDrivesHandler
| MountJupyterDriveHandler.

Definition default_handlers : list (string * HandlerClass) :=
  [("drives", ListJupyterDrivesHandler);
   ("mount-drive", MountJupyterDriveHandler)].

(** Loggers are named; [logging.error] writes to the root logger. *)
Definition Logger := string.
Definition root_logger : Logger := "root".
Definition module_logger : Logger := "jupyter_drives.handlers".

Inductive Level : Type := DEBUG | INFO | ERROR.

(** [except Exception] catches every exception but those deriving from
    [BaseException] alone. *)
Definition except_Exception (e : Exception) : bool :=
  match e with
  | HTTPError _ _ _ => true
  | PyError ty _ _ =>
      negb (bool_decide (ty ∈ ["BaseException"; "KeyboardInterrupt";
                               "SystemExit"; "GeneratorExit"]))
  end.

Section Setup.
(** The configuration object and the manager instances. *)
Context {Config Manager : Type}.

(** A manager class: its [str()] and its constructor. *)
Record Factory := {
  factory_str : string;
  construct : Config -> Exc Manager;
}.

(** An entry point of the group the registry is built from. *)
Record EntryPoint := {
  load : Exc Factory;
}.

(** From jupyter_drives/base.py: the registry [MANAGERS] and the
    [provider] trait of [DrivesConfig(config=config)]. *)
Variable MANAGERS : gmap string EntryPoint.
Variable DrivesConfig_provider : Config -> string.

(** A routing rule: pattern, handler class and the keyword arguments of
    [initialize]. *)
Record Rule := {
  rule_pattern : string;
  rule_handler : HandlerClass;
  rule_logger : Logger;
  rule_manager : Manager;
}.

(** A log message: a text, or the f-string printing the rules. *)
Inductive Message : Type :=
| Msg (text : string)
| MsgHandlers (handlers : list Rule).

Record LogRecord := {
  rec_logger : Logger;
  rec_level : Level;
  rec_msg : Message;
  rec_exc_info : option Exception;
}.

(** [tornado.web.Application]: its settings and the rules added with
    [add_handlers], each group under its host pattern. *)
Record Application := {
  app_settings : Settings;
  app_handlers : list (string * list Rule);
}.

(** The state setup acts on: the application and the log. *)
Record SetupState := {
  web_app : Application;
  records : list LogRecord;
}.

Definition emit (l : Logger) (lv : Level) (m : Message)
    (exc : option Exception) : Act SetupState unit := fun st =>
  (Return tt,
   {| web_app := web_app st;
      records := records st ++
        [{| rec_logger := l; rec_level := lv; rec_msg := m;
            rec_exc_info := exc |}] |}).

Definition add_handlers (host_pattern : string) (handlers : list Rule)
    : Act SetupState unit := fun st =>
  (Return tt,
   {| web_app :=
        {| app_settings := app_settings (web_app st);
           app_handlers :=
             app_handlers (web_app st) ++ [(host_pattern, handlers)] |};
      records := records st |}).

(** [web_app.settings["base_url"]] *)
Definition settings_base_url : Act SetupState string := fun st =>
  match base_url (app_settings (web_app st)) with
  | Some u => (Return u, st)
  | None => (Raise (PyError "KeyError" "'base_url'" []), st)
  end.

Definition setup_handlers (config : Config) (log : option Logger)
    : Act SetupState unit :=
  let host_pattern := ".*$" in
  url ← settings_base_url;
  let base_url := JupyterUtils.url_path_join url [NAMESPACE] in
  let log := default module_logger log in
  let provider := DrivesConfig_provider config in
  let entry_point := MANAGERS !! provider in
  match entry_point with
  | None =>
      emit log ERROR
        (Msg ("JupyterDrives Manager: No manager defined for provider '"
              +:+ provider +:+ "'.")) None;;
      lift (Raise (PyError "NotImplementedError" "" []))
  | Some entry_point =>
      manager_factory ← lift (load entry_point);
      emit log INFO
        (Msg ("JupyterDrives Manager Class "
              +:+ factory_str manager_factory)) None;;
      manager ←
        match construct manager_factory config with
        | Return m => mret m
        | Raise err =>
            if except_Exception err then
              emit root_logger ERROR
                (Msg "JupyterDrives Manager Exception") (Some err);;
              lift (Raise err)
            else lift (Raise err)
        end;
      let handlers :=
        map (fun '(pattern, handler) =>
               {| rule_pattern := JupyterUtils.url_path_join base_url [pattern];
                  rule_handler := handler;
                  rule_logger := log;
                  rule_manager := manager |})
            default_handlers in
      emit log DEBUG (MsgHandlers handlers) None;;
      add_handlers host_pattern handlers
  end.

End Setup.

Arguments Factory : clear implicits.
Arguments EntryPoint : clear implicits.
Arguments Rule : clear implicits.
Arguments Message : clear implicits.
Arguments LogRecord : clear implicits.
Arguments Application : clear implicits.
Arguments SetupState : clear implicits.

(** ** Concrete worlds, for running the definitions *)

Definition env0 : OsPath.Environ :=
  {| OsPath.env_HOME := Some "/home/u/";
     OsPath.pw_self := None;
     OsPath.pw_dir := fun name =>
       if String.eqb name "ann" then Some "/home/ann" else None |}.

(** One plain contents manager rooted at [root]. *)
Definition plain_world (root : string) : World :=
  {| hybridcontents := None;
     environ := env0;
     heap := fun _ => PlainContentsManager root;
     contents_manager := fun _ => 0 |}.

(** A composite manager (object 0) over a root manager (object 1) and a
    manager for the prefix "s3" (object 2). *)
Definition hybrid_world : World :=
  {| hybridcontents := Some HybridManager.lib;
     environ := env0;
     heap := fun r =>
       match r with
       | 0 => HybridContentsManager "/" {[ "" := 1; "s3" := 2 ]}
       | 1 => PlainContentsManager "~/notebooks"
       | _ => PlainContentsManager "/mnt/s3"
       end;
     contents_manager := fun _ => 0 |}.

(** ** Notions the properties are stated with *)

(** The logical path has a traversal segment. *)
Definition has_traversal (path : string) : bool :=
  bool_decide (".." ∈ Py.split Py.sep path).

(** [p] denotes [root] or a location below it, after lexical
    normalisation of both. *)
Definition is_within (root p : string) : bool :=
  let r := OsPath.normpath root in
  let q := OsPath.normpath p in
  String.eqb q r
  || String.prefix (if Py.endswith_char Py.sep r then r else r +:+ "/") q.

(** The path resolution as the specification words it (section 4.2), with
    definitions of its own for every step: start from the configured root;
    under a composite content layer ask the injected multi-root resolver
    for the backing root and the path stripped of the matched prefix;
    expand the user-home shorthand in the root; percent-decode the
    segments of the path and join them, with the separator of the
    operating system, onto the root. *)
Module PathResolver.

(** *** User-home shorthand *)

(** The name before the first "/" and what follows, the "/" included. *)
Fixpoint break_at_sep (s : string) : string * string :=
  match s with
  | EmptyString => (EmptyString, EmptyString)
  | String a r =>
      if Ascii.eqb a Py.sep then (EmptyString, s)
      else let '(name, tail) := break_at_sep r in (String a name, tail)
  end.

(** The home directory that "~name" stands for; "~" alone is the current
    user, by the HOME variable or else the password database. *)
Definition home_of (env : OsPath.Environ) (name : string) : option string :=
  if String.eqb name "" then
    match OsPath.env_HOME env with
    | Some home => Some home
    | None => OsPath.pw_self env
    end
  else OsPath.pw_dir env name.

Definition expand_home (env : OsPath.Environ) (root : string) : string :=
  match root with
  | String a rest =>
      if Ascii.eqb a "~"%char then
        let '(name, tail) := break_at_sep rest in
        match home_of env name with
        | None => root
        | Some home =>
            match Py.rstrip_char Py.sep home +:+ tail with
            | EmptyString => "/"
            | expanded => expanded
            end
        end
      else root
  | EmptyString => EmptyString
  end.

(** *** Percent-decoding, read one character at a time *)

Definition hex_digits : list (ascii * N) :=
  [("0", 0); ("1", 1); ("2", 2); ("3", 3); ("4", 4); ("5", 5); ("6", 6);
   ("7", 7); ("8", 8); ("9", 9);
   ("a", 10); ("b", 11); ("c", 12); ("d", 13); ("e", 14); ("f", 15);
   ("A", 10); ("B", 11); ("C", 12); ("D", 13); ("E", 14); ("F", 15)]%char%N.

Fixpoint lookup_digit (c : ascii) (table : list (ascii * N)) : option N :=
  match table with
  | [] => None
  | (d, v) :: r => if Ascii.eqb d c then Some v else lookup_digit c r
  end.

Definition hex_digit (c : ascii) : option N := lookup_digit c hex_digits.

(** What has been read of an escape that is not complete yet. *)
Inductive Pending : Type :=
| NoEscape
| Percent
| PercentDigit (h : ascii).

Definition flush (p : Pending) : string :=
  match p with
  | NoEscape => EmptyString
  | Percent => "%"
  | PercentDigit h => String "%" (String h EmptyString)
  end.

Fixpoint decode_from (p : Pending) (s : string) : string :=
  match s with
  | EmptyString => flush p
  | String c r =>
      let plain :=
        if Ascii.eqb c "%"%char then decode_from Percent r
        else String c (decode_from NoEscape r) in
      match p with
      | NoEscape => plain
      | Percent =>
          match hex_digit c with
          | Some _ => decode_from (PercentDigit c) r
          | None => String "%" plain
          end
      | PercentDigit h =>
          match hex_digit h, hex_digit c with
          | Some hi, Some lo =>
              String (ascii_of_N (16 * hi + lo)) (decode_from NoEscape r)
          | _, _ => String "%" (String h plain)
          end
      end
  end.

Definition percent_decode (s : string) : string := decode_from NoEscape s.

(** *** Joining *)

(** The directory with its separator, ready to be followed by a name. *)
Definition with_separator (root : string) : string :=
  if String.eqb root "" then ""
  else if Py.endswith_char Py.sep root then root
  else root +:+ "/".

(** A relative path goes under the root, an absolute one replaces it. *)
Definition join_onto (root rel : string) : string :=
  if Py.startswith_char Py.sep rel then rel
  else with_separator root +:+ rel.

(** The segments joined from the first to the last; they are given last
    first. *)
Fixpoint join_segments (rev_segments : list string) : string :=
  match rev_segments with
  | [] => EmptyString
  | last :: before => join_onto (join_segments before) last
  end.

Definition decode_path (logical_path : string) : string :=
  join_segments (rev (map percent_decode (Py.split Py.sep logical_path))).

(** *** The resolver *)

Definition find_backing_root (w : World) (default_cm : ref)
    (logical_path : string) : Exc (ref * string) :=
  match heap w default_cm, hybridcontents w with
  | HybridContentsManager _ managers, Some lib =>
      match _resolve_path lib logical_path managers with
      | Raise e => Raise e
      | Return (_, backing, stripped) => Return (backing, stripped)
      end
  | _, _ => Return (default_cm, logical_path)
  end.

Definition resolve (w : World) (self : Handler) (logical_path : string)
    : Exc (string * ref) :=
  match find_backing_root w (contents_manager w self) logical_path with
  | Raise e => Raise e
  | Return (cm, stripped) =>
      let root := expand_home (environ w) (root_dir (heap w cm)) in
      Return (join_onto root (decode_path stripped), cm)
  end.

End PathResolver.

(** The keys in front of [k] in a cache: those used more recently. *)
Fixpoint before {K V} `{EqDecision K} (k : K) (c : Cache K V) : list K :=
  match c with
  | [] => []
  | (k', _) :: r => if decide (k' = k) then [] else k' :: before k r
  end.

#[global] Instance CwmArg_countable : Countable CwmArg.
Proof.
  refine (inj_countable'
    (fun a => match a with
              | Omitted => None
              | Positional b => Some (inl b)
              | Keyword b => Some (inr b)
              end)
    (fun x => match x with
              | None => Omitted
              | Some (inl b) => Positional b
              | Some (inr b) => Keyword b
              end) _).
  intros []; reflexivity.
Defined.

(** The keys other than [k] among the calls of a run. *)
Definition other_keys (k : Key) (calls : list (World * Key)) : gset Key :=
  list_to_set (filter (fun x => x <> k) (map snd calls)).

(** Two configurations that differ in the root directory only, and the
    trace used against the cache: one call for handler 0, a call on behalf
    of each of 128 other handler instances after the root has changed, and
    the first call again. *)
Definition world_a : World := plain_world "/srv/a".
Definition world_b : World := plain_world "/srv/b".

Definition eviction_trace : list (World * Key) :=
  (world_a, (0, "nb", Omitted))
  :: map (fun i => (world_b, (i, "nb", Omitted))) (seq 1 128)
  ++ [(world_b, (0, "nb", Omitted))].

(** The entry of [k] is in the cache with value [v], the keys of the cache
    are distinct, and every key in front of [k] is one of [seen]. *)
Definition kept {K V} `{Countable K} (k : K) (v : V) (seen : gset K)
    (c : Cache K V) : Prop :=
  cache_get k c = Some v
  /\ NoDup c.*1
  /\ forall x, x ∈ before k c -> x ∈ seen.

(** ** A backend and requests, for running the handlers *)

(** A backend that keeps the list of its bindings [(drive, local_path)]:
    mounting adds one, unmounting removes it; each returns the record of
    the binding. *)
Definition binding_manager : JupyterDrivesManager (list (json * string)) :=
  {| list_drives := fun ms => (Return (JArr (map fst ms)), ms);
     mount_drive := fun drive_name local_path ms =>
       (Return (JObj [("drive_name", drive_name);
                      ("local_path", JStr local_path);
                      ("status", JStr "mounted")]),
        (drive_name, local_path) :: ms);
     unmount_drive := fun drive_name local_path ms =>
       (Return (JObj [("drive_name", drive_name);
                      ("local_path", JStr local_path);
                      ("status", JStr "unmounted")]),
        filter (fun b => b.2 <> local_path) ms) |}.

(** One stack entry for every line. *)
Definition stack0 (line : nat) : list string :=
  ["  File handlers.py, in post" +:+ nl].

Definition settings0 : Settings :=
  {| base_url := Some "/"; serve_traceback := false |}.

Definition state0 : ServerState (list (json * string)) :=
  {| handler := new_handler settings0; cache := []; manager_state := [] |}.

(** A well-formed mount request, and one without [drive_name]. *)
Definition mount_request : Request :=
  {| current_user := true;
     json_body := JsonValue (JObj [("drive_name", JStr "bucket-a");
                                   ("mount_drive", JBool true)]) |}.

Definition request_without_drive_name : Request :=
  {| current_user := true;
     json_body := JsonValue (JObj [("mount_drive", JBool true)]) |}.

(** ** A registry and an application, for running setup_handlers

    The configuration is the name of the provider; managers are numbered.
    The registry has the provider "local-test", whose class constructs,
    and the provider "broken", whose class raises when it is constructed. *)
Definition registry0 : gmap string (EntryPoint string nat) :=
  {[ "local-test" :=
       {| load := Return {| factory_str := "<class 'LocalTestManager'>";
                            construct := fun _ => Return 1 |} |};
     "broken" :=
       {| load := Return {| factory_str := "<class 'BrokenManager'>";
                            construct := fun _ =>
                              Raise (PyError "ValueError" "bad credentials"
                                       []) |} |} ]}.

Definition setup0 : SetupState nat :=
  {| web_app := {| app_settings := settings0; app_handlers := [] |};
     records := [] |}.

(** ** Further notions: clean paths *)

(** [c in s] for a character. *)
Fixpoint has_char (c : ascii) (s : string) : bool :=
  match s with
  | EmptyString => false
  | String a r => Ascii.eqb a c || has_char c r
  end.

(** A logical path is clean when none of its "/"-separated segments is
    empty or has a percent sign. *)
Definition clean_segment (s : string) : bool :=
  negb (String.eqb s "") && negb (has_char "%"%char s).

Definition clean_path (path : string) : bool :=
  forallb clean_segment (Py.split Py.sep path).

(** A backend whose calls all fail with an HTTPError that has a reason and
    an [error_code] attribute. *)
Definition refusing_manager : JupyterDrivesManager nat :=
  let refuse := HTTPError 404 (Some "Drive not found") (Some (JStr "E_DRIVE")) in
  {| list_drives := fun n => (Raise refuse, S n);
     mount_drive := fun _ _ n => (Raise refuse, S n);
     unmount_drive := fun _ _ n => (Raise refuse, S n) |}.

(** * Properties *)

(** ** The library models on small inputs *)

Example split_ex : Py.split Py.sep "a//b/" = ["a"; ""; "b"; ""].
Proof. reflexivity. Qed.
Example unquote_ex : Urllib.unquote "a%2Fb%zz%4" = "a/b%zz%4".
Proof. reflexivity. Qed.
Example unquote_ex2 : Urllib.unquote "%%41" = "%A".
Proof. reflexivity. Qed.
Example join_ex : OsPath.join "/srv" ["a"; "/b"; "c"; ""] = "/b/c/".
Proof. reflexivity. Qed.
Example join_ex2 : OsPath.join "/srv" [""] = "/srv/".
Proof. reflexivity. Qed.
Example url2path_ex : JupyterUtils.url2path "/etc/x%20y" = "etc/x y".
Proof. reflexivity. Qed.
Example url2path_ex2 : JupyterUtils.url2path "" = "".
Proof. reflexivity. Qed.
Example normpath_ex : OsPath.normpath "/srv/jupyter/../../etc//./passwd" = "/etc/passwd".
Proof. reflexivity. Qed.
Example normpath_ex2 : OsPath.normpath "a/../../b" = "../b".
Proof. reflexivity. Qed.
Example normpath_ex3 : OsPath.normpath "//a/" = "//a".
Proof. reflexivity. Qed.
Example normpath_ex4 : OsPath.normpath "///a/.." = "/".
Proof. reflexivity. Qed.
Example upj_ex : JupyterUtils.url_path_join "/" ["jupyter-drives"] = "/jupyter-drives".
Proof. reflexivity. Qed.
Example upj_ex2 : JupyterUtils.url_path_join "/base/" ["jupyter-drives"; "drives"] = "/base/jupyter-drives/drives".
Proof. reflexivity. Qed.
Example expanduser_ex1 : OsPath.expanduser env0 "~/nb" = "/home/u/nb".
Proof. reflexivity. Qed.
Example expanduser_ex2 : OsPath.expanduser env0 "~ann/nb" = "/home/ann/nb".
Proof. reflexivity. Qed.
Example expanduser_ex3 : OsPath.expanduser env0 "~bob/nb" = "~bob/nb".
Proof. reflexivity. Qed.
Example expanduser_ex4 : OsPath.expanduser env0 "/srv/~" = "/srv/~".
Proof. reflexivity. Qed.

Example wrapped_plain :
  url2localpath_wrapped (plain_world "/srv/jupyter") 7 "a/b%20c.ipynb" false
  = Return (LocalPath "/srv/jupyter/a/b c.ipynb").
Proof. reflexivity. Qed.

Example wrapped_hybrid_prefix :
  url2localpath_wrapped hybrid_world 7 "s3/bucket/x" true
  = Return (LocalPathCM "/mnt/s3/bucket/x" 2).
Proof. vm_compute. reflexivity. Qed.

Example wrapped_hybrid_root :
  url2localpath_wrapped hybrid_world 7 "work/x" false
  = Return (LocalPath "/home/u/notebooks/work/x").
Proof. vm_compute. reflexivity. Qed.

Example wrapped_hybrid_rejects :
  url2localpath_wrapped hybrid_world 7 "s3/../../x" false
  = Raise (HTTPError 404 None None).
Proof. vm_compute. reflexivity. Qed.

(** ** url2localpath: what is computed *)

(** *** The empty path *)

Lemma append_empty_r (s : string) : s +:+ "" = s.
Proof.
  induction s as [|a s IH]; [reflexivity|].
  change (String a (s +:+ "") = String a s). by rewrite IH.
Qed.

Lemma split_char_snoc_sep (r : string) :
  Py.split_char Py.sep (r +:+ "/") =
  (fst (Py.split_char Py.sep r),
   (snd (Py.split_char Py.sep r) ++ [""])%list).
Proof.
  induction r as [|a r IH]; [reflexivity|].
  simpl. rewrite IH.
  destruct (Py.split_char Py.sep r) as [h t]; cbn [fst snd].
  destruct (Ascii.eqb a Py.sep); reflexivity.
Qed.

Lemma split_snoc_sep (r : string) :
  Py.split Py.sep (r +:+ "/") = (Py.split Py.sep r ++ [""])%list.
Proof.
  unfold Py.split. rewrite split_char_snoc_sep.
  destruct (Py.split_char Py.sep r) as [h t]; reflexivity.
Qed.

Lemma norm_comps_snoc_empty (n : nat) (l acc : list string) :
  OsPath.norm_comps n (l ++ [""])%list acc = OsPath.norm_comps n l acc.
Proof.
  revert acc; induction l as [|c l IH]; intros acc; [reflexivity|].
  cbn [app OsPath.norm_comps]. rewrite !IH. reflexivity.
Qed.

Lemma initial_slashes_snoc_sep (r : string) :
  r <> "" -> Py.endswith_char Py.sep r = false ->
  OsPath.initial_slashes (r +:+ "/") = OsPath.initial_slashes r.
Proof.
  destruct r as [|a [|b [|c r]]]; simpl; try reflexivity.
  - congruence.
  - intros _ ->. reflexivity.
  - intros _ Hb. rewrite Hb. destruct (Ascii.eqb a Py.sep); reflexivity.
Qed.

(** A trailing separator does not change the directory a path denotes. *)
Lemma normpath_snoc_sep (r : string) :
  r <> "" -> Py.endswith_char Py.sep r = false ->
  OsPath.normpath (r +:+ "/") = OsPath.normpath r.
Proof.
  intros Hne Hend. unfold OsPath.normpath.
  rewrite initial_slashes_snoc_sep, split_snoc_sep, norm_comps_snoc_empty
    by assumption.
  destruct r as [|a r]; [congruence|]. reflexivity.
Qed.

(** The resolver of hybridcontents sends the empty path to the manager
    registered under the empty prefix, with nothing left of the path. *)
Lemma resolve_path_empty (managers : gmap string ref) :
  HybridManager.resolve_path "" managers =
  match managers !! "" with
  | Some mgr => Return ("", mgr, "")
  | None => Raise (HTTPError 404 None None)
  end.
Proof.
  unfold HybridManager.resolve_path, HybridManager.resolve_path_wrapped.
  cbn. by destruct (managers !! "").
Qed.

(** The resolver of hybridcontents selects by the first segment of the
    normalised path and strips it; when no manager is registered under
    that segment, it selects the manager of the empty prefix and strips
    nothing. *)
Lemma resolve_path_selects_by_prefix (managers : gmap string ref)
    (path prefix rest : string) (mgr : ref) :
  HybridManager.resolve_path path managers = Return (prefix, mgr, rest) ->
  managers !! prefix = Some mgr
  /\ exists normalized,
       HybridManager.normalize_api_path path = Return normalized
       /\ ((exists tail,
              Py.split Py.sep normalized = prefix :: tail
              /\ rest = Py.join "/" tail)
           \/ (prefix = "" /\ rest = normalized
               /\ managers !! hd "" (Py.split Py.sep normalized) = None)).
Proof.
  unfold HybridManager.resolve_path, HybridManager.resolve_path_wrapped,
    HybridManager.outside_root_to_404.
  destruct (HybridManager.normalize_api_path path) as [e|p] eqn:Hn.
  { cbn. destruct e as [| ty msg tb]; [discriminate|].
    destruct (String.eqb ty "PathOutsideRoot"); discriminate. }
  cbn. unfold Py.split.
  destruct (Py.split_char Py.sep p) as [first tail] eqn:Hs.
  destruct (managers !! first) as [m|] eqn:Hm.
  - intros [= <- <- <-]. split; [done|]. exists p. split; [done|]. left.
    exists tail. by rewrite Hs.
  - destruct (managers !! "") as [m|] eqn:Hroot; [|discriminate].
    intros [= <- <- <-]. split; [done|]. exists p. split; [done|]. right.
    by rewrite Hs.
Qed.

(** C8. The empty logical path resolves to the root directory of the
    selected manager itself: the local path is the expanded root with
    nothing appended but the separator that [os.path.join] puts after a
    non-empty root that does not end in one, and it denotes the same
    directory as the expanded root (they are equal after normalisation).
    This holds for the default manager when it is a plain one, and under a
    composite manager for the manager its resolver selects for the empty
    path. *)
Theorem url2localpath_empty_path :
  forall (w : World) (self : Handler) (b : bool),
    let resolves_to_root_of (cm : ref) :=
      let r := OsPath.expanduser (environ w) (root_dir (heap w cm)) in
      let local_path :=
        if String.eqb r "" || Py.endswith_char Py.sep r then r
        else r +:+ "/" in
      url2localpath_wrapped w self "" b =
        Return (if b then LocalPathCM local_path cm else LocalPath local_path)
      /\ OsPath.normpath local_path = OsPath.normpath r in
    (forall root,
       heap w (contents_manager w self) = PlainContentsManager root ->
       resolves_to_root_of (contents_manager w self))
    /\ (forall lib r0 managers prefix cm,
          hybridcontents w = Some lib ->
          heap w (contents_manager w self)
            = HybridContentsManager r0 managers ->
          _resolve_path lib "" managers = Return (prefix, cm, "") ->
          resolves_to_root_of cm).
Proof.
  intros w self b resolves_to_root_of.
  assert (Hnorm : forall r,
    OsPath.normpath (if String.eqb r "" || Py.endswith_char Py.sep r
                     then r else r +:+ "/") = OsPath.normpath r).
  { intros r. destruct (String.eqb r "") eqn:He; [reflexivity|].
    destruct (Py.endswith_char Py.sep r) eqn:Hs; [reflexivity|].
    cbn. apply normpath_snoc_sep; [|assumption].
    intros ->. discriminate. }
  assert (Hjoin : forall r,
    OsPath.join r [JupyterUtils.url2path ""]
    = if String.eqb r "" || Py.endswith_char Py.sep r then r else r +:+ "/").
  { intros r. cbn. unfold OsPath.join_step. cbn.
    destruct (String.eqb r "" || Py.endswith_char Py.sep r);
      rewrite ?append_empty_r; reflexivity. }
  split.
  - intros root Hcm. unfold resolves_to_root_of. split; [|apply Hnorm].
    unfold url2localpath_wrapped. rewrite Hcm.
    destruct (hybridcontents w);
      cbn -[OsPath.join JupyterUtils.url2path]; rewrite Hcm;
      cbn [root_dir]; by rewrite Hjoin.
  - intros lib r0 managers prefix cm Hlib Hcm Hres.
    unfold resolves_to_root_of. split; [|apply Hnorm].
    unfold url2localpath_wrapped. rewrite Hlib, Hcm, Hres.
    cbn -[OsPath.join JupyterUtils.url2path]. by rewrite Hjoin.
Qed.

Lemma url2localpath_empty_path_witness :
  (url2localpath_wrapped (plain_world "~/nb") 3 "" false
     = Return (LocalPath "/home/u/nb/")
   /\ OsPath.normpath "/home/u/nb/" = OsPath.normpath "/home/u/nb")
  /\ (url2localpath_wrapped hybrid_world 3 "" true
        = Return (LocalPathCM "/home/u/notebooks/" 1)
      /\ OsPath.normpath "/home/u/notebooks/"
         = OsPath.normpath "/home/u/notebooks").
Proof.
  split.
  - exact (proj1 (url2localpath_empty_path (plain_world "~/nb") 3 false)
             "~/nb" eq_refl).
  - apply (proj2 (url2localpath_empty_path hybrid_world 3 true)
             HybridManager.lib "/" {[ "" := 1; "s3" := 2 ]} "" 1).
    + reflexivity.
    + reflexivity.
    + vm_compute. reflexivity.
Defined.

(** The separator after the root: under the root "/srv/jupyter" the empty
    path gives "/srv/jupyter/". *)
Example empty_path_trailing_separator :
  fst (url2localpath (plain_world "/srv/jupyter") [] (0, "", Omitted))
  = Return (LocalPath "/srv/jupyter/").
Proof. reflexivity. Qed.

(** ** url2localpath and traversal segments *)

(** The only way url2localpath raises: the resolver of the composite
    manager raised. *)
Lemma url2localpath_wrapped_raises (w : World) (self : Handler)
    (path : string) (b : bool) (e : Exception) :
  url2localpath_wrapped w self path b = Raise e ->
  exists lib r managers,
    hybridcontents w = Some lib
    /\ heap w (contents_manager w self) = HybridContentsManager r managers
    /\ _resolve_path lib path managers = Raise e.
Proof.
  unfold url2localpath_wrapped.
  destruct (hybridcontents w) as [lib|]; [|discriminate].
  destruct (heap w (contents_manager w self)) as [r|r managers] eqn:Hcm;
    [discriminate|].
  destruct (_resolve_path lib path managers) as [e'|[[p c] q]] eqn:Hres;
    cbn; [|discriminate].
  intros [= ->]. eauto 10.
Qed.

(** C1, as the code has it. url2localpath has no traversal check of its
    own. With a plain contents manager it rejects no path, with or without
    ".." segments, and returns the decoded path joined onto the expanded
    root without normalising it; and whenever it does raise, the exception
    is the one the resolver of a composite manager raised. *)
Theorem url2localpath_no_traversal_check :
  forall (w : World) (self : Handler) (path : string) (b : bool),
    (forall root,
       heap w (contents_manager w self) = PlainContentsManager root ->
       let local_path :=
         OsPath.join (OsPath.expanduser (environ w) root)
                     [JupyterUtils.url2path path] in
       url2localpath_wrapped w self path b =
       Return (if b then LocalPathCM local_path (contents_manager w self)
               else LocalPath local_path))
    /\ (forall e,
          url2localpath_wrapped w self path b = Raise e ->
          exists lib r managers,
            hybridcontents w = Some lib
            /\ heap w (contents_manager w self)
               = HybridContentsManager r managers
            /\ _resolve_path lib path managers = Raise e).
Proof.
  intros w self path b. split.
  - intros root Hcm local_path.
    unfold url2localpath_wrapped. rewrite Hcm.
    destruct (hybridcontents w); cbn; rewrite Hcm; reflexivity.
  - intros e. apply url2localpath_wrapped_raises.
Qed.

Lemma url2localpath_no_traversal_check_witness :
  url2localpath_wrapped (plain_world "~/nb") 3 "a/../../../../etc/passwd" false
  = Return (LocalPath "/home/u/nb/a/../../../../etc/passwd").
Proof.
  exact (proj1 (url2localpath_no_traversal_check (plain_world "~/nb") 3
                  "a/../../../../etc/passwd" false) "~/nb" eq_refl).
Defined.

(** C1 as worded fails: under the root "/srv/jupyter" the path
    "../../etc/passwd" has traversal segments, is not rejected, and
    resolves to a path that denotes "/etc/passwd", outside the root. *)
Lemma traversal_escapes_root :
  has_traversal "../../etc/passwd" = true
  /\ fst (url2localpath (plain_world "/srv/jupyter") []
            (0, "../../etc/passwd", Omitted))
     = Return (LocalPath "/srv/jupyter/../../etc/passwd")
  /\ OsPath.normpath "/srv/jupyter/../../etc/passwd" = "/etc/passwd"
  /\ is_within (OsPath.expanduser env0 "/srv/jupyter")
       "/srv/jupyter/../../etc/passwd" = false.
Proof. repeat split; reflexivity. Qed.

(** ** The cache in front of url2localpath *)

Section LruFacts.
Context {K V : Type} `{EqDecision K}.
Implicit Types (c : Cache K V) (k : K) (v : V) (f : K -> Exc V).

Lemma cache_get_elem_of k v c : cache_get k c = Some v -> (k, v) ∈ c.
Proof.
  induction c as [|[k' v'] c IH]; cbn; [discriminate|].
  destruct (decide (k' = k)) as [->|_].
  - intros [= ->]. left.
  - intros Hg. right. auto.
Qed.

Lemma cache_get_None k c : cache_get k c = None <-> k ∉ c.*1.
Proof.
  induction c as [|[k' v'] c IH]; cbn.
  - split; [intros _; apply not_elem_of_nil | done].
  - rewrite not_elem_of_cons. destruct (decide (k' = k)) as [->|Hne].
    + split; [discriminate | intros [? _]; congruence].
    + rewrite IH. split; [intros ?; split; congruence | intros [_ ?]; done].
Qed.

Lemma cache_remove_sublist k c : cache_remove k c `sublist_of` c.
Proof.
  induction c as [|[k' v'] c IH]; cbn; [constructor|].
  destruct (decide (k' = k)); [by apply sublist_cons | by apply sublist_skip].
Qed.

Lemma removelast_sublist {A} (l : list A) : removelast l `sublist_of` l.
Proof.
  induction l as [|x [|y l] IH]; cbn; [constructor| |].
  - apply sublist_cons. constructor.
  - by apply sublist_skip.
Qed.

Lemma Forall_of_sublist {A} (P : A -> Prop) (l1 l2 : list A) :
  l1 `sublist_of` l2 -> Forall P l2 -> Forall P l1.
Proof.
  rewrite !Forall_forall. intros Hsub HP x Hx.
  apply HP. by eapply elem_of_sublist.
Qed.

(** What a call returns and stores, when every stored value is what the
    function returns for its key. *)
Lemma lru_cache_agrees maxsize f c k :
  Forall (fun kv => f kv.1 = Return kv.2) c ->
  (lru_cache maxsize f c k).1 = f k
  /\ Forall (fun kv => f kv.1 = Return kv.2) (lru_cache maxsize f c k).2.
Proof.
  intros Hc. unfold lru_cache.
  destruct (cache_get k c) as [v|] eqn:Hget.
  - apply cache_get_elem_of in Hget.
    pose proof (proj1 (Forall_forall _ _) Hc _ Hget) as Hk. cbn in Hk.
    split; [by rewrite Hk|]. cbn. constructor; [done|].
    eapply Forall_of_sublist; [apply cache_remove_sublist | done].
  - destruct (f k) as [e|v] eqn:Hf; [done|].
    split; [done|]. cbn [snd].
    destruct (List.length c <? maxsize)%nat; constructor; try done.
    eapply Forall_of_sublist; [apply removelast_sublist | done].
Qed.

End LruFacts.

(** Under one world, a cache whose entries are results of the undecorated
    function in that world answers every later call with the result of the
    undecorated function. *)
Lemma run_calls_fixed_world (w : World) (keys : list Key)
    (c : Cache Key Resolved) :
  Forall (fun kv => url2localpath_uncached w kv.1 = Return kv.2) c ->
  (run_calls c (map (pair w) keys)).1 = map (url2localpath_uncached w) keys.
Proof.
  revert c; induction keys as [|k keys IH]; intros c Hc; [reflexivity|].
  cbn [map run_calls].
  destruct (lru_cache_agrees default_maxsize (url2localpath_uncached w) c k Hc)
    as [Hres Hc'].
  unfold url2localpath.
  destruct (lru_cache default_maxsize (url2localpath_uncached w) c k)
    as [res c'] eqn:Hcall.
  cbn [fst snd] in Hres, Hc'. specialize (IH c' Hc').
  destruct (run_calls c' (map (pair w) keys)) as [rs c''].
  cbn [fst] in *. by rewrite Hres, IH.
Qed.

(** C9. Under a fixed root configuration (one world for the whole run),
    starting from the empty cache, every call of the memoized url2localpath
    returns exactly what the undecorated function returns for the same
    arguments, whatever calls came before. *)
Theorem memoized_equals_unmemoized :
  forall (w : World) (keys : list Key),
    (run_calls [] (map (pair w) keys)).1
    = map (url2localpath_uncached w) keys.
Proof.
  intros w keys. apply run_calls_fixed_world. constructor.
Qed.

(** *** How long an entry stays in the cache *)

Section LruSurvival.
Context {K V : Type} `{Countable K}.
Implicit Types (c : Cache K V) (k : K) (v : V) (f : K -> Exc V).
Implicit Types (seen : gset K).

Lemma cache_get_remove_ne k k' c :
  k' <> k -> cache_get k (cache_remove k' c) = cache_get k c.
Proof.
  intros Hne. induction c as [|[k0 v0] c IH]; cbn; [done|].
  destruct (decide (k0 = k')) as [->|Hk0].
  - by destruct (decide (k' = k)).
  - cbn. by destruct (decide (k0 = k)).
Qed.

Lemma before_remove_ne k k' c x :
  k' <> k -> x ∈ before k (cache_remove k' c) -> x ∈ before k c.
Proof.
  intros Hne. induction c as [|[k0 v0] c IH]; cbn; [done|].
  destruct (decide (k0 = k')) as [->|Hk0].
  - destruct (decide (k' = k)); [done|]. apply list_elem_of_further.
  - cbn. destruct (decide (k0 = k)); [done|].
    rewrite !elem_of_cons. intros [->|Hx]; [by left | right; auto].
Qed.

Lemma cache_remove_keys_NoDup k c :
  NoDup c.*1 -> NoDup (cache_remove k c).*1 /\ k ∉ (cache_remove k c).*1.
Proof.
  induction c as [|[k0 v0] c IH]; cbn.
  - intros _. split; [constructor | apply not_elem_of_nil].
  - rewrite NoDup_cons. intros [Hk0 Hnd].
    destruct (IH Hnd) as [IH1 IH2].
    destruct (decide (k0 = k)) as [->|Hne]; [done|].
    cbn. split.
    + apply NoDup_cons. split; [|done].
      intros Hin. apply Hk0.
      eapply elem_of_sublist; [exact Hin|].
      apply fmap_sublist, cache_remove_sublist.
    + rewrite not_elem_of_cons. split; [congruence | done].
Qed.

Lemma before_sublist k c : before k c `sublist_of` c.*1.
Proof.
  induction c as [|[k0 v0] c IH]; cbn; [constructor|].
  destruct (decide (k0 = k)); [apply sublist_nil_l | by apply sublist_skip].
Qed.

Lemma before_length k v c :
  cache_get k c = Some v -> List.length (before k c) < List.length c.
Proof.
  induction c as [|[k0 v0] c IH]; cbn; [discriminate|].
  destruct (decide (k0 = k)); cbn; [lia|].
  intros Hg. specialize (IH Hg). lia.
Qed.

Lemma removelast_keeps k v c :
  cache_get k c = Some v ->
  S (List.length (before k c)) < List.length c ->
  cache_get k (removelast c) = Some v
  /\ before k (removelast c) = before k c.
Proof.
  induction c as [|[k0 v0] c IH]; [discriminate|].
  intros Hg Hlen. destruct (decide (c = [])) as [->|Hc].
  - cbn in *. destruct (decide (k0 = k)); [cbn in Hlen; lia | discriminate].
  - assert (removelast ((k0, v0) :: c) = (k0, v0) :: removelast c) as ->
      by (by destruct c).
    cbn [cache_get before] in *. destruct (decide (k0 = k)); [done|].
    cbn [List.length] in Hlen.
    destruct IH as [IH1 IH2]; [done | lia |]. by rewrite IH2.
Qed.

(** A call with the same key is a hit, whatever the function would now
    return. *)
Lemma lru_step_same maxsize f c k v seen :
  kept k v seen c ->
  (lru_cache maxsize f c k).1 = Return v
  /\ kept k v seen (lru_cache maxsize f c k).2.
Proof.
  intros (Hget & Hnd & _). unfold lru_cache. rewrite Hget.
  split; [done|]. cbn [snd]. repeat split.
  - cbn. by rewrite decide_True.
  - cbn. destruct (cache_remove_keys_NoDup k c Hnd).
    by apply NoDup_cons.
  - cbn. rewrite decide_True by done. by intros x ?%elem_of_nil.
Qed.

(** A call with another key leaves the entry in place while fewer than
    [maxsize] other keys have been seen. *)
Lemma lru_step_other maxsize f c k v k' seen :
  kept k v seen c -> k' <> k -> size (seen ∪ {[k']}) < maxsize ->
  kept k v (seen ∪ {[k']}) (lru_cache maxsize f c k').2.
Proof.
  intros (Hget & Hnd & Hbef) Hne Hsize. unfold lru_cache.
  destruct (cache_get k' c) as [v'|] eqn:Hget'.
  - cbn [snd]. destruct (cache_remove_keys_NoDup k' c Hnd) as [Hnd' Hk'].
    repeat split.
    + cbn. rewrite decide_False by done. by rewrite cache_get_remove_ne.
    + cbn. by apply NoDup_cons.
    + cbn. rewrite decide_False by done.
      intros x [->|Hx]%elem_of_cons; [set_solver|].
      apply before_remove_ne in Hx; [|done]. set_solver.
  - apply cache_get_None in Hget'.
    assert (Hk'b : k' ∉ before k c).
    { intros Hin. apply Hget'. eapply elem_of_sublist; [exact Hin|].
      apply before_sublist. }
    destruct (f k') as [e|v'].
    { cbn [snd]. repeat split; [done..|]. intros x Hx. set_solver. }
    cbn [snd]. destruct (List.length c <? maxsize)%nat eqn:Hfull.
    + repeat split.
      * cbn. by rewrite decide_False.
      * cbn. by apply NoDup_cons.
      * cbn. rewrite decide_False by done.
        intros x [->|Hx]%elem_of_cons; set_solver.
    + apply Nat.ltb_ge in Hfull.
      assert (Hroom : S (List.length (before k c)) < List.length c).
      { pose proof (before_length k v c Hget) as Hlt.
        destruct (decide (S (List.length (before k c)) = List.length c))
          as [Hlast|]; [exfalso | lia].
        assert (Hndb : NoDup (k' :: before k c)).
        { apply NoDup_cons. split; [done|].
          exact (sublist_NoDup _ _ Hnd (before_sublist k c)). }
        assert (Hsub : list_to_set (C:=gset K) (k' :: before k c)
                       ⊆ seen ∪ {[k']}).
        { intros x. rewrite elem_of_list_to_set.
          intros [->|Hx]%elem_of_cons; set_solver. }
        apply subseteq_size in Hsub.
        rewrite size_list_to_set in Hsub by done.
        cbn [List.length] in Hsub. lia. }
      destruct (removelast_keeps k v c Hget Hroom) as [Hg' Hb'].
      repeat split.
      * cbn. by rewrite decide_False.
      * cbn. apply NoDup_cons. split.
        -- intros Hin. apply Hget'. eapply elem_of_sublist; [exact Hin|].
           apply fmap_sublist, removelast_sublist.
        -- refine (sublist_NoDup _ _ Hnd _).
           apply fmap_sublist, removelast_sublist.
      * cbn. rewrite decide_False by done. rewrite Hb'.
        intros x [->|Hx]%elem_of_cons; set_solver.
Qed.

(** The keys of the cache stay distinct, and a call that returns leaves
    its entry at the front. *)
Lemma lru_cache_NoDup maxsize f c k :
  NoDup c.*1 -> NoDup (lru_cache maxsize f c k).2.*1.
Proof.
  intros Hnd. unfold lru_cache.
  destruct (cache_get k c) as [v|] eqn:Hget.
  - cbn. destruct (cache_remove_keys_NoDup k c Hnd). by apply NoDup_cons.
  - apply cache_get_None in Hget. destruct (f k) as [e|v]; [done|].
    cbn [snd]. destruct (List.length c <? maxsize)%nat; cbn.
    + by apply NoDup_cons.
    + apply NoDup_cons. split.
      * intros Hin. apply Hget. eapply elem_of_sublist; [exact Hin|].
        apply fmap_sublist, removelast_sublist.
      * refine (sublist_NoDup _ _ Hnd _).
        apply fmap_sublist, removelast_sublist.
Qed.

Lemma lru_cache_returned maxsize f c k v :
  NoDup c.*1 -> (lru_cache maxsize f c k).1 = Return v ->
  kept k v ∅ (lru_cache maxsize f c k).2.
Proof.
  intros Hnd Hres. pose proof (lru_cache_NoDup maxsize f c k Hnd) as Hnd'.
  revert Hres Hnd'. unfold lru_cache.
  destruct (cache_get k c) as [v0|] eqn:Hget.
  - cbn [fst snd]. intros [= ->] Hnd'. unfold kept.
    cbn [cache_get before]. rewrite !decide_True by done.
    repeat split; [done|]. by intros x ?%elem_of_nil.
  - destruct (f k) as [e|v0]; [discriminate|].
    cbn [fst snd]. intros [= ->]. unfold kept.
    destruct (List.length c <? maxsize)%nat; intros Hnd';
      cbn [cache_get before]; rewrite !decide_True by done;
      (repeat split; [done|]); by intros x ?%elem_of_nil.
Qed.

End LruSurvival.

Lemma run_calls_NoDup (calls : list (World * Key)) (c : Cache Key Resolved) :
  NoDup c.*1 -> NoDup (run_calls c calls).2.*1.
Proof.
  revert c; induction calls as [|[w k] calls IH]; intros c Hnd; [done|].
  cbn [run_calls]. unfold url2localpath.
  pose proof (lru_cache_NoDup default_maxsize (url2localpath_uncached w)
                c k Hnd) as Hnd'.
  destruct (lru_cache default_maxsize (url2localpath_uncached w) c k)
    as [res c'].
  specialize (IH c' Hnd'). by destruct (run_calls c' calls).
Qed.

Lemma other_keys_cons (k k' : Key) (w : World) (mid : list (World * Key)) :
  other_keys k ((w, k') :: mid) =
  if decide (k' = k) then other_keys k mid
  else {[k']} ∪ other_keys k mid.
Proof.
  unfold other_keys. cbn [map snd]. rewrite filter_cons.
  destruct (decide (k' = k)) as [->|Hne].
  - rewrite decide_False; [done | by intros Hk].
  - by rewrite decide_True.
Qed.

Lemma run_calls_kept (k : Key) (v : Resolved) (mid : list (World * Key)) :
  forall (c : Cache Key Resolved) (seen : gset Key),
    kept k v seen c ->
    size (seen ∪ other_keys k mid) < default_maxsize ->
    exists seen', kept k v seen' (run_calls c mid).2.
Proof.
  induction mid as [|[w k'] mid IH]; intros c seen Hk Hsize; [by exists seen|].
  cbn [run_calls]. unfold url2localpath.
  rewrite other_keys_cons in Hsize.
  destruct (decide (k' = k)) as [->|Hne].
  - destruct (lru_step_same default_maxsize (url2localpath_uncached w)
                c k v seen Hk) as [_ Hk'].
    destruct (lru_cache default_maxsize (url2localpath_uncached w) c k)
      as [res c'].
    destruct (IH c' seen Hk' Hsize) as [seen' Hfin].
    exists seen'. by destruct (run_calls c' mid).
  - assert (Hsize1 : size (seen ∪ {[k']}) < default_maxsize).
    { eapply Nat.le_lt_trans; [|exact Hsize].
      apply subseteq_size, union_mono_l, union_subseteq_l. }
    pose proof (lru_step_other default_maxsize (url2localpath_uncached w)
                  c k v k' seen Hk Hne Hsize1) as Hk'.
    destruct (lru_cache default_maxsize (url2localpath_uncached w) c k')
      as [res c'].
    destruct (IH c' (seen ∪ {[k']}) Hk') as [seen' Hfin].
    { by rewrite <- (assoc_L (∪)). }
    exists seen'. by destruct (run_calls c' mid).
Qed.

(** C10, as the code has it. Once url2localpath has returned a value for
    a key (handler instance, path and the way [with_contents_manager] is
    passed), a later call with the same key returns that same value,
    whatever the worlds of the calls in between and of the later call (the
    root directory may have changed), as long as fewer than 128 distinct
    other keys were used in between: the cache holds 128 entries and drops
    the least recently used one. *)
Theorem cached_value_survives :
  forall (pre mid : list (World * Key)) (w0 w1 : World) (k : Key)
         (v : Resolved),
    let c0 := (run_calls [] pre).2 in
    (url2localpath w0 c0 k).1 = Return v ->
    size (other_keys k mid) < default_maxsize ->
    (url2localpath w1 (run_calls (url2localpath w0 c0 k).2 mid).2 k).1
    = Return v.
Proof.
  intros pre mid w0 w1 k v c0 Hfirst Hsize.
  assert (Hnd : NoDup c0.*1) by (apply run_calls_NoDup; constructor).
  pose proof (lru_cache_returned default_maxsize (url2localpath_uncached w0)
                c0 k v Hnd Hfirst) as Hk.
  destruct (run_calls_kept k v mid _ ∅ Hk) as [seen' Hfin].
  { by rewrite (left_id_L ∅ (∪)). }
  exact (proj1 (lru_step_same default_maxsize (url2localpath_uncached w1)
                  _ k v seen' Hfin)).
Qed.

Lemma cached_value_survives_witness :
  (url2localpath world_b
     (run_calls (url2localpath world_a [] (0, "nb", Omitted)).2
        [(world_b, (1, "nb", Omitted)); (world_b, (0, "other", Omitted))]).2
     (0, "nb", Omitted)).1
  = Return (LocalPath "/srv/a/nb").
Proof.
  apply (cached_value_survives []
           [(world_b, (1, "nb", Omitted)); (world_b, (0, "other", Omitted))]
           world_a world_b (0, "nb", Omitted) (LocalPath "/srv/a/nb")).
  - reflexivity.
  - apply Nat.ltb_lt. vm_compute. reflexivity.
Defined.

(** C10 as worded fails: after a call for handler 0 under the root
    "/srv/a", 128 calls with other keys evict its entry, and the same call
    then returns the value computed under the root of that moment. *)
Lemma lru_eviction_changes_result :
  snd <$> eviction_trace !! 0 = Some (0, "nb", Omitted)
  /\ snd <$> eviction_trace !! 129 = Some (0, "nb", Omitted)
  /\ (run_calls [] eviction_trace).1 !! 0
     = Some (Return (LocalPath "/srv/a/nb"))
  /\ (run_calls [] eviction_trace).1 !! 129
     = Some (Return (LocalPath "/srv/b/nb")).
Proof. repeat split; vm_compute; reflexivity. Qed.

(** ** write_error *)

(** C2, as the code has it. For an exception that is not an HTTPError,
    write_error finishes the response with the JSON object whose only
    field, [error], is the full formatted traceback of the exception; no
    [error_code] is included, and no setting of the handler (the debug
    switch [serve_traceback] in particular) is consulted. *)
Theorem write_error_sends_traceback :
  forall (self : RequestHandler) (status_code : Z)
         (exc_type exc_str : string) (tb : list string),
    let r := write_error self status_code
               (Some (PyError exc_type exc_str tb)) in
    _write_buffer r =
      (_write_buffer self ++
       [json_dumps
          (JObj [("error",
                  JStr (Py.concat (format_exception exc_type exc_str tb)))])])%list
    /\ dict_get "Content-Type" (_headers r) = Some "application/json"
    /\ _finished r = true
    /\ _status_code r = _status_code self.
Proof.
  intros self status_code exc_type exc_str tb r.
  repeat split.
  unfold r, write_error, finish, set_header. cbn [_headers].
  induction (_headers self) as [|[n v] hs IH]; cbn; [done|].
  destruct (String.eqb n "Content-Type") eqn:E; cbn; rewrite E; done.
Qed.

(** C2 as worded fails: with the debug switch off, the response to a
    KeyError carries the traceback of the exception. *)
Lemma traceback_sent_without_debug :
  serve_traceback settings0 = false
  /\ is_HTTPError (PyError "KeyError" "'drive_name'" (stack0 97)) = false
  /\ _write_buffer
       (write_error (new_handler settings0) 500
          (Some (PyError "KeyError" "'drive_name'" (stack0 97))))
     = [json_dumps (JObj [("error", JStr "Traceback (most recent call last):
  File handlers.py, in post
KeyError: 'drive_name'
")])].
Proof. repeat split. Qed.

(** ** The mount handler *)

(** Unfold the sequencing of [Act] and compute, leaving the map lookups,
    the cache and truth values alone. *)
Ltac act_step :=
  unfold mbind, Act_bind, lift; cbn -[dict_get url2localpath truthy].

Section PostFacts.
Context {MS : Type}.
Variable w : World.
Variable mgr : JupyterDrivesManager MS.
Variable stack : nat -> list string.

(** With both fields present, whatever their values, post resolves the
    path, calls [mount_drive] when the value of [mount_drive] is true in
    Python's sense and [unmount_drive] otherwise, with the value of
    [drive_name] as it is, and then raises at line 106 when the manager
    returned a result. *)
Lemma post_dispatches_then_raises (self : Handler) (req : Request)
    (path : string) (st : ServerState MS) (items : list (string * json))
    (dn md : json) (lp : Resolved) (c' : Cache Key Resolved) :
  current_user req = true ->
  json_body req = JsonValue (JObj items) ->
  dict_get "drive_name" items = Some dn ->
  dict_get "mount_drive" items = Some md ->
  url2localpath w (cache st) (self, path, Omitted) = (Return lp, c') ->
  post w mgr stack self req path st =
  let call := if truthy md then mount_drive mgr else unmount_drive mgr in
  let st' := {| handler := handler st; cache := c';
                manager_state :=
                  (call dn (local_path_of lp) (manager_state st)).2 |} in
  match (call dn (local_path_of lp) (manager_state st)).1 with
  | Raise e => (Raise e, st')
  | Return _ => (Raise (dump_error stack 106), st')
  end.
Proof.
  intros Hu Hb Hdn Hmd Hlp.
  unfold post, post_body, get_json_body. rewrite Hu, Hb.
  act_step. rewrite Hdn, Hmd. act_step.
  unfold call_url2localpath. rewrite Hlp. act_step.
  destruct (truthy md); unfold call_manager; act_step.
  - destruct (mount_drive mgr dn (local_path_of lp) (manager_state st))
      as [[e|r] ms]; reflexivity.
  - destruct (unmount_drive mgr dn (local_path_of lp) (manager_state st))
      as [[e|r] ms]; reflexivity.
Qed.

(** post never completes: every run of it ends in an exception. *)
Lemma post_always_raises (self : Handler) (req : Request) (path : string)
    (st : ServerState MS) :
  exists e, (post w mgr stack self req path st).1 = Raise e.
Proof.
  unfold post. destruct (current_user req); [|by eexists].
  unfold post_body, get_json_body, call_url2localpath, call_manager,
    json_dump, mbind, Act_bind, lift.
  repeat case_match; simplify_eq; by eexists.
Qed.

(** The list handler, by contrast, serialises with [json.dumps] and
    finishes the response with the drives the manager returned. *)
Lemma get_body_finishes (st : ServerState MS) (drives : json) (ms : MS) :
  list_drives mgr (manager_state st) = (Return drives, ms) ->
  get_body mgr st =
  (Return tt,
   {| handler := finish (Some (json_dumps drives)) (handler st);
      cache := cache st; manager_state := ms |}).
Proof.
  intros Hl. unfold get_body, mbind, Act_bind. rewrite Hl. reflexivity.
Qed.

End PostFacts.

(** C3 on the code. A well-formed request to mount "bucket-a" (empty
    path) resolves the path and calls [mount_drive] of the manager, which
    records the binding; the response is then not the serialised
    MountResult with status 200 but status 500 with the traceback of the
    TypeError that [json.dump(result)] raises at line 106. *)
Theorem mount_request_is_answered_500 :
  let st := execute_post (plain_world "/srv/jupyter") binding_manager stack0
              0 mount_request "" state0 in
  manager_state st = [(JStr "bucket-a", "/srv/jupyter/")]
  /\ _status_code (handler st) = 500%Z
  /\ _write_buffer (handler st)
     = [json_dumps (JObj [("error", JStr "Traceback (most recent call last):
  File handlers.py, in post
TypeError: dump() missing 1 required positional argument: 'fp'
")])].
Proof. repeat split. Qed.

(** C4, as the code has it. The handler does not validate the body. When
    the body is a JSON object without [drive_name] or without
    [mount_drive], the lookup raises KeyError, which is not an HTTPError:
    the request is answered with status 500 and the traceback as the error
    field, and the manager is not called. When both fields are present
    their types are not checked: the manager is called with the value of
    [drive_name] as it is, [mount_drive] or [unmount_drive] being chosen by
    the truth value of the other field. *)
Theorem mount_body_is_not_validated :
  forall (MS : Type) (w : World) (mgr : JupyterDrivesManager MS)
         (stack : nat -> list string) (self : Handler) (req : Request)
         (path : string) (st : ServerState MS) (items : list (string * json)),
    current_user req = true ->
    _finished (handler st) = false ->
    json_body req = JsonValue (JObj items) ->
    let st' := execute_post w mgr stack self req path st in
    (dict_get "drive_name" items = None
     \/ dict_get "mount_drive" items = None ->
     let missing :=
       match dict_get "drive_name" items with
       | Some _ => ("mount_drive", 98)
       | None => ("drive_name", 97)
       end in
     _status_code (handler st') = 500%Z
     /\ _write_buffer (handler st')
        = [json_dumps
             (JObj [("error",
                     JStr (Py.concat
                             (format_exception "KeyError"
                                ("'" +:+ missing.1 +:+ "'")
                                (stack missing.2))))])]
     /\ manager_state st' = manager_state st
     /\ cache st' = cache st)
    /\ (forall dn md lp c',
          dict_get "drive_name" items = Some dn ->
          dict_get "mount_drive" items = Some md ->
          url2localpath w (cache st) (self, path, Omitted)
            = (Return lp, c') ->
          manager_state st' =
            ((if truthy md then mount_drive mgr else unmount_drive mgr)
               dn (local_path_of lp) (manager_state st)).2).
Proof.
  intros MS w mgr stack self req path st items Hu Hfin Hb st'. split.
  - intros Hmiss. unfold st', execute_post, post, post_body, get_json_body.
    rewrite Hu, Hb. act_step.
    destruct (dict_get "drive_name" items) as [dn|] eqn:Hdn.
    + destruct Hmiss as [?|Hmd]; [done|]. rewrite Hmd. act_step.
      unfold _handle_request_exception. rewrite Hfin. done.
    + act_step. unfold _handle_request_exception. rewrite Hfin. done.
  - intros dn md lp c' Hdn Hmd Hlp. unfold st', execute_post.
    rewrite (post_dispatches_then_raises w mgr stack self req path st items
               dn md lp c' Hu Hb Hdn Hmd Hlp).
    cbn zeta.
    destruct ((if truthy md then mount_drive mgr else unmount_drive mgr)
                dn (local_path_of lp) (manager_state st)) as [[e|r] ms];
      reflexivity.
Qed.

Lemma mount_body_is_not_validated_witness :
  let st' := execute_post (plain_world "/srv/jupyter") binding_manager stack0
               0 request_without_drive_name "" state0 in
  _status_code (handler st') = 500%Z
  /\ _write_buffer (handler st')
     = [json_dumps (JObj [("error", JStr "Traceback (most recent call last):
  File handlers.py, in post
KeyError: 'drive_name'
")])]
  /\ manager_state st' = []
  /\ cache st' = [].
Proof.
  exact (proj1 (mount_body_is_not_validated _ (plain_world "/srv/jupyter")
                  binding_manager stack0 0 request_without_drive_name ""
                  state0 [("mount_drive", JBool true)]
                  eq_refl eq_refl eq_refl)
               (or_introl eq_refl)).
Defined.

(** C4 as worded fails: the request without [drive_name] is answered
    with status 500, which is not a 4xx status. *)
Lemma missing_field_is_answered_500 :
  let st' := execute_post (plain_world "/srv/jupyter") binding_manager stack0
               0 request_without_drive_name "" state0 in
  _status_code (handler st') = 500%Z
  /\ ~ (400 <= _status_code (handler st') < 500)%Z.
Proof.
  split; [reflexivity|]. intros [_ Hlt]. vm_compute in Hlt. discriminate.
Qed.

(** ** setup_handlers *)

Example setup_local_test :
  (setup_handlers registry0 id "local-test" None setup0).1 = Return tt
  /\ app_handlers
       (web_app (setup_handlers registry0 id "local-test" None setup0).2)
     = [(".*$",
         [{| rule_pattern := "/jupyter-drives/drives";
             rule_handler := ListJupyterDrivesHandler;
             rule_logger := module_logger; rule_manager := 1 |};
          {| rule_pattern := "/jupyter-drives/mount-drive";
             rule_handler := MountJupyterDriveHandler;
             rule_logger := module_logger; rule_manager := 1 |}])].
Proof. split; vm_compute; reflexivity. Qed.

(** C5. When the registry has no entry for the configured provider,
    setup_handlers raises (NotImplementedError) after logging, at the error
    level, a message that names the provider; the application is left as
    it was, so no handler is installed and nothing is deferred to a
    request. *)
Theorem unknown_provider_is_fatal :
  forall (Config Manager : Type) (MANAGERS : gmap string (EntryPoint Config Manager))
         (DrivesConfig_provider : Config -> string) (config : Config)
         (log : option Logger) (st : SetupState Manager) (url : string),
    base_url (app_settings (web_app st)) = Some url ->
    MANAGERS !! DrivesConfig_provider config = None ->
    setup_handlers MANAGERS DrivesConfig_provider config log st =
    (Raise (PyError "NotImplementedError" "" []),
     {| web_app := web_app st;
        records :=
          records st ++
          [{| rec_logger := default module_logger log;
              rec_level := ERROR;
              rec_msg :=
                Msg ("JupyterDrives Manager: No manager defined for provider '"
                     +:+ DrivesConfig_provider config +:+ "'.");
              rec_exc_info := None |}] |}).
Proof.
  intros Config Manager MANAGERS provider_of config log st url Hurl Hnone.
  unfold setup_handlers, settings_base_url, mbind, Act_bind.
  rewrite Hurl, Hnone. reflexivity.
Qed.

Lemma unknown_provider_is_fatal_witness :
  setup_handlers registry0 id "s3" None setup0 =
  (Raise (PyError "NotImplementedError" "" []),
   {| web_app := web_app setup0;
      records :=
        [{| rec_logger := module_logger;
            rec_level := ERROR;
            rec_msg :=
              Msg "JupyterDrives Manager: No manager defined for provider 's3'.";
            rec_exc_info := None |}] |}).
Proof.
  apply (unknown_provider_is_fatal string nat registry0 id "s3" None setup0
           "/").
  - reflexivity.
  - vm_compute. reflexivity.
Defined.

(** C6. When the constructor of the manager class raises, setup_handlers
    raises that same exception and leaves the application as it was: no
    handler is installed. *)
Theorem manager_construction_failure_is_fatal :
  forall (Config Manager : Type) (MANAGERS : gmap string (EntryPoint Config Manager))
         (DrivesConfig_provider : Config -> string) (config : Config)
         (log : option Logger) (st : SetupState Manager) (url : string)
         (entry_point : EntryPoint Config Manager)
         (manager_factory : Factory Config Manager) (err : Exception),
    base_url (app_settings (web_app st)) = Some url ->
    MANAGERS !! DrivesConfig_provider config = Some entry_point ->
    load entry_point = Return manager_factory ->
    construct manager_factory config = Raise err ->
    (setup_handlers MANAGERS DrivesConfig_provider config log st).1
      = Raise err
    /\ web_app (setup_handlers MANAGERS DrivesConfig_provider config log st).2
       = web_app st.
Proof.
  intros Config Manager MANAGERS provider_of config log st url ep f err
    Hurl Hep Hload Hcons.
  unfold setup_handlers, settings_base_url, mbind, Act_bind, lift.
  rewrite Hurl, Hep, Hload. cbn. rewrite Hcons.
  destruct (except_Exception err); split; reflexivity.
Qed.

Lemma manager_construction_failure_is_fatal_witness :
  (setup_handlers registry0 id "broken" None setup0).1
    = Raise (PyError "ValueError" "bad credentials" [])
  /\ web_app (setup_handlers registry0 id "broken" None setup0).2
     = web_app setup0.
Proof.
  apply (manager_construction_failure_is_fatal string nat registry0 id
           "broken" None setup0 "/"
           {| load := Return {| factory_str := "<class 'BrokenManager'>";
                                construct := fun _ =>
                                  Raise (PyError "ValueError"
                                           "bad credentials" []) |} |}
           {| factory_str := "<class 'BrokenManager'>";
              construct := fun _ =>
                Raise (PyError "ValueError" "bad credentials" []) |}).
  - reflexivity.
  - vm_compute. reflexivity.
  - reflexivity.
  - reflexivity.
Defined.

(** * Further properties of the module *)

(** ** write_error on every input *)

Lemma dict_get_set_eq {A} (k : string) (v : A) (items : list (string * A)) :
  dict_get k (dict_set k v items) = Some v.
Proof.
  induction items as [|[k0 v0] items IH]; cbn.
  - by rewrite String.eqb_refl.
  - destruct (String.eqb k0 k) eqn:E; cbn; rewrite E; done.
Qed.

Lemma dict_get_set_ne {A} (k k' : string) (v : A)
    (items : list (string * A)) :
  k <> k' -> dict_get k' (dict_set k v items) = dict_get k' items.
Proof.
  intros Hne. induction items as [|[k0 v0] items IH]; cbn.
  - destruct (String.eqb k k') eqn:E; [|done].
    by apply String.eqb_eq in E.
  - destruct (String.eqb k0 k) eqn:E; cbn.
    + apply String.eqb_eq in E as ->.
      destruct (String.eqb k k') eqn:E'; [|done].
      by apply String.eqb_eq in E'.
    + by rewrite IH.
Qed.

(** The keys of the dict [reply] of write_error. *)
Lemma write_error_reply_keys (exc_info : option Exception) (key : string) :
  is_Some (dict_get key (write_error_reply exc_info)) ->
  key = "error" \/ key = "error_code".
Proof.
  destruct (decide (key = "error")) as [|Hne1]; [by left|].
  destruct (decide (key = "error_code")) as [|Hne2]; [by right|].
  intros [v Hv]. exfalso. revert Hv. unfold write_error_reply.
  assert (Hbase : dict_get key [("error", JStr "Unhandled error")]
                  = (None : option json)).
  { cbn [dict_get]. destruct (String.eqb "error" key) eqn:E; [|done].
    apply String.eqb_eq in E. congruence. }
  destruct exc_info as [[sc reason code|ty msg tb]|].
  - destruct code as [code|];
      rewrite ?(dict_get_set_ne "error_code") by congruence;
      rewrite (dict_get_set_ne "error") by congruence;
      rewrite Hbase; discriminate.
  - rewrite (dict_get_set_ne "error") by congruence.
    rewrite Hbase; discriminate.
  - rewrite Hbase; discriminate.
Qed.

(** X1. On a response that is not finished and whose status code allows a
    body and is not 200, write_error, whatever the exception information,
    finishes the response with one more chunk, a JSON object that has an
    [error] field and no field other than [error] and [error_code], and
    sets the JSON content type; the status code is not changed. *)
Theorem write_error_payload_shape :
  forall (self : RequestHandler) (status_code : Z)
         (exc_info : option Exception),
    _finished self = false ->
    allows_body (_status_code self) = true ->
    _status_code self <> 200%Z ->
    let r := write_error self status_code exc_info in
    exists items,
      _write_buffer r = (_write_buffer self ++ [json_dumps (JObj items)])%list
      /\ is_Some (dict_get "error" items)
      /\ (forall key, is_Some (dict_get key items) ->
                      key = "error" \/ key = "error_code")
      /\ dict_get "Content-Type" (_headers r) = Some "application/json"
      /\ _finished r = true
      /\ _status_code r = _status_code self.
Proof.
  intros self status_code exc_info _ _ _ r.
  exists (write_error_reply exc_info). split; [reflexivity|].
  split; [|split; [apply write_error_reply_keys|]].
  - destruct exc_info as [[sc reason [code|]|ty msg tb]|]; cbn; by eexists.
  - repeat split. unfold r, write_error, finish. cbn [_headers set_header].
    apply dict_get_set_eq.
Qed.

Lemma write_error_payload_shape_witness :
  let r := write_error (set_status 404 (new_handler settings0)) 404
             (Some (HTTPError 404 (Some "Drive not found")
                      (Some (JStr "E_DRIVE")))) in
  exists items,
    _write_buffer r = [json_dumps (JObj items)]
    /\ is_Some (dict_get "error" items)
    /\ (forall key, is_Some (dict_get key items) ->
                    key = "error" \/ key = "error_code")
    /\ dict_get "Content-Type" (_headers r) = Some "application/json"
    /\ _finished r = true
    /\ _status_code r = 404%Z.
Proof.
  apply (write_error_payload_shape (set_status 404 (new_handler settings0))
           404 (Some (HTTPError 404 (Some "Drive not found")
                        (Some (JStr "E_DRIVE"))))).
  - reflexivity.
  - reflexivity.
  - discriminate.
Defined.

(** ** The cache of url2localpath: shape, first use, exceptions *)

Section LruShape.
Context {K V : Type} `{EqDecision K}.
Implicit Types (c : Cache K V) (k : K) (v : V) (f : K -> Exc V).

Lemma cache_remove_length k v c :
  cache_get k c = Some v ->
  S (List.length (cache_remove k c)) = List.length c.
Proof.
  induction c as [|[k0 v0] c IH]; cbn; [discriminate|].
  destruct (decide (k0 = k)); [done|]. cbn. intros Hg. by rewrite IH.
Qed.

Lemma removelast_length_pred {A} (l : list A) :
  List.length (removelast l) = pred (List.length l).
Proof.
  induction l as [|x [|y l] IH]; [done..|].
  change (removelast (x :: y :: l)) with (x :: removelast (y :: l)).
  cbn [List.length] in *. by rewrite IH.
Qed.

Lemma lru_cache_length maxsize f c k :
  0 < maxsize -> List.length c <= maxsize ->
  List.length (lru_cache maxsize f c k).2 <= maxsize.
Proof.
  intros Hpos Hlen. unfold lru_cache.
  destruct (cache_get k c) as [v|] eqn:Hget.
  - cbn. by rewrite (cache_remove_length k v c Hget).
  - destruct (f k) as [e|v]; [done|]. cbn [snd].
    destruct (List.length c <? maxsize)%nat eqn:Hfull.
    + apply Nat.ltb_lt in Hfull. cbn. lia.
    + cbn. rewrite removelast_length_pred. lia.
Qed.

Lemma lru_cache_keys maxsize f c k x :
  x ∈ (lru_cache maxsize f c k).2.*1 -> x = k \/ x ∈ c.*1.
Proof.
  unfold lru_cache. destruct (cache_get k c) as [v|] eqn:Hget.
  - cbn. intros [->|Hx]%elem_of_cons; [by left|]. right.
    eapply elem_of_sublist; [exact Hx|].
    apply fmap_sublist, cache_remove_sublist.
  - destruct (f k) as [e|v]; [by right|]. cbn [snd].
    destruct (List.length c <? maxsize)%nat; cbn;
      intros [->|Hx]%elem_of_cons; [by left | by right | by left |].
    right. eapply elem_of_sublist; [exact Hx|].
    apply fmap_sublist, removelast_sublist.
Qed.

(** A call that raises was a miss and leaves the cache as it was. *)
Lemma lru_cache_raise maxsize f c k e :
  (lru_cache maxsize f c k).1 = Raise e ->
  cache_get k c = None /\ f k = Raise e /\ (lru_cache maxsize f c k).2 = c.
Proof.
  unfold lru_cache. destruct (cache_get k c) as [v|]; [discriminate|].
  destruct (f k) as [e'|v]; [|discriminate]. by intros [= ->].
Qed.

Lemma lru_cache_miss maxsize f c k :
  cache_get k c = None -> (lru_cache maxsize f c k).1 = f k.
Proof. unfold lru_cache. intros ->. by destruct (f k). Qed.

End LruShape.

Lemma run_calls_length (calls : list (World * Key))
    (c : Cache Key Resolved) :
  List.length c <= default_maxsize ->
  List.length (run_calls c calls).2 <= default_maxsize.
Proof.
  revert c; induction calls as [|[w k] calls IH]; intros c Hlen; [done|].
  cbn [run_calls]. unfold url2localpath.
  pose proof (lru_cache_length default_maxsize (url2localpath_uncached w)
                c k ltac:(unfold default_maxsize; lia) Hlen) as Hlen'.
  destruct (lru_cache default_maxsize (url2localpath_uncached w) c k)
    as [res c'].
  specialize (IH c' Hlen'). by destruct (run_calls c' calls).
Qed.

Lemma run_calls_keys (calls : list (World * Key)) (c : Cache Key Resolved)
    (x : Key) :
  x ∈ (run_calls c calls).2.*1 -> x ∈ calls.*2 \/ x ∈ c.*1.
Proof.
  revert c; induction calls as [|[w k] calls IH]; intros c; [by right|].
  cbn [run_calls]. unfold url2localpath.
  pose proof (lru_cache_keys default_maxsize (url2localpath_uncached w)
                c k x) as Hstep.
  destruct (lru_cache default_maxsize (url2localpath_uncached w) c k)
    as [res c'].
  specialize (IH c'). destruct (run_calls c' calls) as [rs c''].
  cbn [snd] in *. intros Hx. destruct (IH Hx) as [Hin|Hin].
  - left. cbn. by right.
  - destruct (Hstep Hin) as [->|Hc]; [left; cbn; by left | by right].
Qed.

(** X2. After any run of calls from the empty cache, the cache holds at most
    128 entries and no two of them are for the same key. *)
Theorem cache_stays_bounded_and_distinct :
  forall (calls : list (World * Key)),
    List.length (run_calls [] calls).2 <= 128
    /\ NoDup (run_calls [] calls).2.*1.
Proof.
  intros calls. split.
  - apply (run_calls_length calls []). cbn. lia.
  - apply run_calls_NoDup. constructor.
Qed.

(** X3. The first call for a key (a handler instance, a path and a way of
    passing the flag that no earlier call used) is computed by the
    function in the world of that call: nothing cached for other keys is
    ever returned for it. *)
Theorem first_use_of_a_key_is_computed :
  forall (pre : list (World * Key)) (w : World) (k : Key),
    k ∉ pre.*2 ->
    (url2localpath w (run_calls [] pre).2 k).1 = url2localpath_uncached w k.
Proof.
  intros pre w k Hfresh. unfold url2localpath. apply lru_cache_miss.
  apply cache_get_None. intros Hin.
  destruct (run_calls_keys pre [] k Hin) as [?|Hnil]; [done|].
  by apply elem_of_nil in Hnil.
Qed.

Lemma first_use_of_a_key_is_computed_witness :
  (url2localpath world_b
     (run_calls [] [(world_a, (0, "nb", Omitted))]).2
     (0, "nb", Positional false)).1
  = url2localpath_uncached world_b (0, "nb", Positional false).
Proof.
  apply (first_use_of_a_key_is_computed [(world_a, (0, "nb", Omitted))]
           world_b (0, "nb", Positional false)).
  vm_compute. intros Hin. inversion Hin as [|? ? ? Hin']; inversion Hin'.
Defined.

(** X4. A call that raises stores nothing: the cache is left as it was, and
    the next call with the same key runs the function again, in the world
    of that next call. *)
Theorem raised_call_is_not_cached :
  forall (w w' : World) (c : Cache Key Resolved) (k : Key) (e : Exception),
    (url2localpath w c k).1 = Raise e ->
    (url2localpath w c k).2 = c
    /\ (url2localpath w' (url2localpath w c k).2 k).1
       = url2localpath_uncached w' k.
Proof.
  intros w w' c k e Hraise. unfold url2localpath in *.
  destruct (lru_cache_raise _ _ _ _ _ Hraise) as (Hget & _ & Hc).
  split; [done|]. rewrite Hc. by apply lru_cache_miss.
Qed.

Lemma raised_call_is_not_cached_witness :
  (url2localpath hybrid_world [] (0, "../x", Omitted)).2 = []
  /\ (url2localpath world_a
        (url2localpath hybrid_world [] (0, "../x", Omitted)).2
        (0, "../x", Omitted)).1
     = url2localpath_uncached world_a (0, "../x", Omitted).
Proof.
  apply (raised_call_is_not_cached hybrid_world world_a [] (0, "../x", Omitted)
           (HTTPError 404 None None)).
  vm_compute. reflexivity.
Defined.

(** ** url2path and the join on clean and on absolute segments *)

Lemma append_assoc (a b c : string) : (a +:+ b) +:+ c = a +:+ (b +:+ c).
Proof.
  induction a as [|x a IH]; [reflexivity|].
  change (String x ((a +:+ b) +:+ c) = String x (a +:+ (b +:+ c))).
  by rewrite IH.
Qed.

Lemma append_cancel_l (r x y : string) : r +:+ x = r +:+ y -> x = y.
Proof.
  induction r as [|a r IH]; [done|].
  change (String a (r +:+ x) = String a (r +:+ y) -> x = y).
  intros [= Heq]. auto.
Qed.

Lemma join_cons_char (a : ascii) (h : string) (t : list string) :
  Py.join "/" (String a h :: t) = String a (Py.join "/" (h :: t)).
Proof. destruct t; reflexivity. Qed.

(** Splitting at "/" and joining with "/" gives the string back. *)
Lemma join_split (s : string) : Py.join "/" (Py.split Py.sep s) = s.
Proof.
  unfold Py.split. induction s as [|a s IH]; [reflexivity|].
  cbn [Py.split_char]. destruct (Py.split_char Py.sep s) as [h t].
  destruct (Ascii.eqb a Py.sep) eqn:Ea.
  - apply Ascii.eqb_eq in Ea as ->.
    change (Py.join "/" ("" :: h :: t))
      with (String Py.sep (Py.join "/" (h :: t))).
    by rewrite IH.
  - by rewrite join_cons_char, IH.
Qed.

(** The fields of a split have no separator. *)
Lemma split_char_no_sep (s : string) :
  has_char Py.sep (Py.split_char Py.sep s).1 = false
  /\ Forall (fun x => has_char Py.sep x = false) (Py.split_char Py.sep s).2.
Proof.
  induction s as [|a s [IH1 IH2]]; [by split|].
  cbn [Py.split_char]. destruct (Py.split_char Py.sep s) as [h t].
  cbn [fst snd] in *. destruct (Ascii.eqb a Py.sep) eqn:Ea; cbn [fst snd].
  - split; [done | by constructor].
  - split; [|done]. cbn. by rewrite Ea.
Qed.

Lemma unquote_no_percent (s : string) :
  has_char "%"%char s = false -> Urllib.unquote s = s.
Proof.
  induction s as [|a s IH]; [done|].
  cbn [has_char Urllib.unquote]. intros [Ha Hs]%orb_false_iff.
  rewrite Ha. by rewrite IH.
Qed.

Lemma endswith_no_sep (s : string) :
  has_char Py.sep s = false -> Py.endswith_char Py.sep s = false.
Proof.
  induction s as [|a s IH]; [done|].
  cbn [has_char]. intros [Ha Hs]%orb_false_iff.
  destruct s as [|b s]; [done|]. by apply IH.
Qed.

Lemma endswith_append (x b : string) :
  b <> "" ->
  Py.endswith_char Py.sep (x +:+ b) = Py.endswith_char Py.sep b.
Proof.
  intros Hb. induction x as [|a x IH]; [done|].
  change (String a x +:+ b) with (String a (x +:+ b)).
  cbn [Py.endswith_char]. destruct (x +:+ b) eqn:E; [|done].
  destruct x; [by subst | discriminate].
Qed.

Lemma startswith_no_sep (s : string) :
  has_char Py.sep s = false -> Py.startswith_char Py.sep s = false.
Proof. destruct s as [|a s]; [done|]. cbn. by intros [? _]%orb_false_iff. Qed.

(** [os.path.join] of non-empty pieces without a separator puts one "/"
    between them. *)
Lemma os_join_clean (a : string) (p : list string) :
  a <> "" -> Py.endswith_char Py.sep a = false ->
  Forall (fun x => x <> "" /\ has_char Py.sep x = false) p ->
  OsPath.join a p = Py.join "/" (a :: p).
Proof.
  revert a; induction p as [|b p IH]; intros a Ha Hend Hp; [done|].
  apply Forall_cons in Hp as [[Hb Hsep] Hp].
  unfold OsPath.join. cbn [fold_left].
  assert (Hstep : OsPath.join_step a b = a +:+ "/" +:+ b).
  { unfold OsPath.join_step. rewrite (startswith_no_sep b Hsep), Hend.
    destruct a; [done|]. reflexivity. }
  rewrite Hstep. fold (OsPath.join (a +:+ "/" +:+ b) p). rewrite IH; [| | |done].
  - destruct p as [|c p]; [done|].
    change (Py.join "/" ((a +:+ "/" +:+ b) :: c :: p))
      with ((a +:+ "/" +:+ b) +:+ "/" +:+ Py.join "/" (c :: p)).
    change (Py.join "/" (a :: b :: c :: p))
      with (a +:+ "/" +:+ b +:+ "/" +:+ Py.join "/" (c :: p)).
    by rewrite !append_assoc.
  - destruct a; [done | discriminate].
  - rewrite <- append_assoc, endswith_append by done.
    by apply endswith_no_sep.
Qed.

(** On a clean path url2path is the identity: nothing is decoded, dropped
    or reordered. *)
Theorem url2path_clean_is_identity :
  forall (path : string),
    clean_path path = true -> JupyterUtils.url2path path = path.
Proof.
  intros path Hclean. unfold clean_path, Py.split in Hclean.
  unfold JupyterUtils.url2path.
  pose proof (split_char_no_sep path) as [Hh Ht].
  pose proof (join_split path) as Hjs. unfold Py.split in Hjs.
  destruct (Py.split_char Py.sep path) as [h t]. cbn [fst snd] in *.
  cbn [forallb] in Hclean. apply andb_true_iff in Hclean as [Hch Hct].
  unfold clean_segment in Hch.
  apply andb_true_iff in Hch as [Hne Hpc].
  apply negb_true_iff in Hne, Hpc.
  rewrite (unquote_no_percent h Hpc).
  assert (Hmap : map Urllib.unquote t = t).
  { clear -Hct. induction t as [|x t IH]; [done|].
    cbn [forallb] in Hct. apply andb_true_iff in Hct as [Hx Ht].
    unfold clean_segment in Hx. apply andb_true_iff in Hx as [_ Hx].
    apply negb_true_iff in Hx. cbn. by rewrite (unquote_no_percent x Hx), IH. }
  rewrite Hmap, os_join_clean; [done | | |].
  - intros ->. discriminate.
  - by apply endswith_no_sep.
  - clear -Hct Ht. induction t as [|x t IH]; [constructor|].
    apply Forall_cons in Ht as [Hx Ht].
    cbn [forallb] in Hct. apply andb_true_iff in Hct as [Hcx Hct].
    constructor; [|by apply IH]. split; [|done].
    unfold clean_segment in Hcx. apply andb_true_iff in Hcx as [Hcx _].
    intros ->. discriminate.
Qed.

Lemma url2path_clean_is_identity_witness :
  JupyterUtils.url2path "work/2024/report.ipynb" = "work/2024/report.ipynb".
Proof.
  apply (url2path_clean_is_identity "work/2024/report.ipynb"). reflexivity.
Defined.

Lemma clean_path_not_absolute (path : string) :
  clean_path path = true -> Py.startswith_char Py.sep path = false.
Proof.
  destruct path as [|a path]; [done|].
  unfold clean_path, Py.split. cbn [Py.split_char Py.startswith_char].
  destruct (Py.split_char Py.sep path) as [h t].
  destruct (Ascii.eqb a Py.sep); [|done]. discriminate.
Qed.

(** With a plain contents manager, two clean paths that resolve to the same
    local path are the same path. *)
Lemma url2localpath_clean_paths_eq :
  forall (w : World) (self : Handler) (b : bool) (root p1 p2 : string),
    heap w (contents_manager w self) = PlainContentsManager root ->
    clean_path p1 = true -> clean_path p2 = true ->
    url2localpath_wrapped w self p1 b = url2localpath_wrapped w self p2 b ->
    p1 = p2.
Proof.
  intros w self b root p1 p2 Hcm H1 H2.
  unfold url2localpath_wrapped. rewrite Hcm.
  destruct (hybridcontents w); cbn; rewrite Hcm; cbn;
    rewrite (url2path_clean_is_identity p1 H1),
            (url2path_clean_is_identity p2 H2);
    unfold OsPath.join_step;
    rewrite (clean_path_not_absolute p1 H1), (clean_path_not_absolute p2 H2);
    destruct (_ || _); destruct b; intros [= Heq];
    try (by apply append_cancel_l in Heq);
    apply append_cancel_l in Heq; by apply (append_cancel_l "/") in Heq.
Qed.

(** X6. With a plain contents manager, two different clean paths never resolve
    to the same local path. *)
Theorem url2localpath_injective_on_clean_paths :
  forall (w : World) (self : Handler) (b : bool) (root p1 p2 : string),
    heap w (contents_manager w self) = PlainContentsManager root ->
    clean_path p1 = true -> clean_path p2 = true ->
    p1 <> p2 ->
    url2localpath_wrapped w self p1 b <> url2localpath_wrapped w self p2 b.
Proof.
  intros w self b root p1 p2 Hcm H1 H2 Hne Heq. apply Hne.
  exact (url2localpath_clean_paths_eq w self b root p1 p2 Hcm H1 H2 Heq).
Qed.

Lemma url2localpath_injective_on_clean_paths_witness :
  url2localpath_wrapped (plain_world "~/nb") 0 "a/b" true
  <> url2localpath_wrapped (plain_world "~/nb") 0 "a/c" true.
Proof.
  apply (url2localpath_injective_on_clean_paths (plain_world "~/nb") 0 true
           "~/nb" "a/b" "a/c").
  - reflexivity.
  - reflexivity.
  - reflexivity.
  - discriminate.
Defined.

Lemma last_cons {A} (t : list A) (x d : A) :
  List.last (x :: t) d = List.last t x.
Proof.
  revert x d; induction t as [|a t IH]; intros x d; [done|].
  change (List.last (x :: a :: t) d) with (List.last (a :: t) d).
  by rewrite (IH a d), (IH a x).
Qed.

Lemma os_join_last_absolute (p : list string) (a : string) :
  Py.startswith_char Py.sep (List.last p a) = true ->
  p <> [] -> OsPath.join a p = List.last p a.
Proof.
  revert a; induction p as [|b p IH]; intros a Habs Hne; [done|].
  rewrite last_cons in *. unfold OsPath.join. cbn [fold_left].
  fold (OsPath.join (OsPath.join_step a b) p).
  destruct p as [|c p].
  - cbn in *. unfold OsPath.join_step. by rewrite Habs.
  - rewrite IH; rewrite ?last_cons in *; done.
Qed.

Lemma last_map_unquote (t : list string) (h : string) :
  List.last (map Urllib.unquote t) (Urllib.unquote h)
  = Urllib.unquote (List.last t h).
Proof.
  revert h; induction t as [|x t IH]; intros h; [done|].
  cbn [map]. by rewrite !last_cons.
Qed.

(** X7. With a plain contents manager, when the last segment of the logical
    path percent-decodes to a string that starts with "/", url2localpath
    returns exactly that decoded segment: the root directory and all the
    earlier segments are discarded. *)
Theorem url2localpath_absolute_segment_discards_root :
  forall (w : World) (self : Handler) (path root : string),
    heap w (contents_manager w self) = PlainContentsManager root ->
    let last_segment :=
      Urllib.unquote (List.last (Py.split Py.sep path) "") in
    Py.startswith_char Py.sep last_segment = true ->
    url2localpath_wrapped w self path false = Return (LocalPath last_segment).
Proof.
  intros w self path root Hcm last_segment Habs.
  assert (Hu : JupyterUtils.url2path path = last_segment).
  { unfold JupyterUtils.url2path, last_segment, Py.split in *.
    destruct (Py.split_char Py.sep path) as [h t].
    rewrite last_cons in *. rewrite <- last_map_unquote in *.
    destruct t as [|x t]; [done|].
    by apply os_join_last_absolute. }
  unfold url2localpath_wrapped. rewrite Hcm.
  destruct (hybridcontents w); cbn; rewrite Hcm; cbn; rewrite Hu;
    unfold OsPath.join_step; by rewrite Habs.
Qed.

Lemma url2localpath_absolute_segment_discards_root_witness :
  url2localpath_wrapped (plain_world "/srv/jupyter") 0 "work/%2Fetc%2Fpasswd"
    false
  = Return (LocalPath "/etc/passwd").
Proof.
  exact (url2localpath_absolute_segment_discards_root
           (plain_world "/srv/jupyter") 0 "work/%2Fetc%2Fpasswd"
           "/srv/jupyter" eq_refl eq_refl).
Defined.

(** ** The mount handler: refusals, failures and the list handler *)

(** X8. A POST without a current user, or with a body that is not JSON, is
    refused before anything else happens: status 403 (no user) or 400 (bad
    JSON), the body [{"error": null}] since these HTTPErrors carry no
    reason, and neither the cache nor the manager is touched. *)
Theorem post_refused_before_any_work :
  forall (MS : Type) (w : World) (mgr : JupyterDrivesManager MS)
         (stack : nat -> list string) (self : Handler) (req : Request)
         (path : string) (st : ServerState MS),
    _finished (handler st) = false ->
    current_user req = false \/ json_body req = InvalidJson ->
    let st' := execute_post w mgr stack self req path st in
    _status_code (handler st')
      = (if current_user req then 400 else 403)%Z
    /\ _write_buffer (handler st') = [json_dumps (JObj [("error", JNull)])]
    /\ cache st' = cache st
    /\ manager_state st' = manager_state st.
Proof.
  intros MS w mgr stack self req path st Hfin Hcase st'.
  unfold st', execute_post, post.
  destruct (current_user req) eqn:Hu.
  - destruct Hcase as [?|Hbody]; [done|].
    unfold post_body, get_json_body. rewrite Hbody. act_step.
    unfold _handle_request_exception; rewrite Hfin. done.
  - act_step. unfold _handle_request_exception; rewrite Hfin. done.
Qed.

Lemma post_refused_before_any_work_witness :
  let st' := execute_post (plain_world "/srv/jupyter") binding_manager stack0
               0 {| current_user := false; json_body := EmptyBody |} ""
               state0 in
  _status_code (handler st') = 403%Z
  /\ _write_buffer (handler st') = [json_dumps (JObj [("error", JNull)])]
  /\ cache st' = []
  /\ manager_state st' = [].
Proof.
  exact (post_refused_before_any_work _ (plain_world "/srv/jupyter")
           binding_manager stack0 0
           {| current_user := false; json_body := EmptyBody |} "" state0
           eq_refl (or_introl eq_refl)).
Defined.

(** X9. An authenticated POST without a body, or whose JSON body is not an
    object, fails at the first lookup with a TypeError: it is answered with
    status 500 and the traceback, and neither the cache nor the manager is
    touched. *)
Theorem post_body_not_an_object :
  forall (MS : Type) (w : World) (mgr : JupyterDrivesManager MS)
         (stack : nat -> list string) (self : Handler) (req : Request)
         (path : string) (st : ServerState MS),
    _finished (handler st) = false ->
    current_user req = true ->
    json_body req <> InvalidJson ->
    (forall items, json_body req <> JsonValue (JObj items)) ->
    let st' := execute_post w mgr stack self req path st in
    _status_code (handler st') = 500%Z
    /\ (exists msg,
          _write_buffer (handler st')
          = [json_dumps
               (JObj [("error",
                       JStr (Py.concat
                               (format_exception "TypeError" msg
                                  (stack 97))))])])
    /\ cache st' = cache st
    /\ manager_state st' = manager_state st.
Proof.
  intros MS w mgr stack self req path st Hfin Hu Hvalid Hobj st'.
  unfold st', execute_post, post, post_body, get_json_body. rewrite Hu.
  destruct (json_body req) as [| |[| | | | |items]];
    try congruence; try (by destruct (Hobj items));
    act_step; unfold _handle_request_exception; rewrite Hfin;
    (split; [done|]); (split; [by eexists | done]).
Qed.

Lemma post_body_not_an_object_witness :
  let st' := execute_post (plain_world "/srv/jupyter") binding_manager stack0
               0 {| current_user := true; json_body := EmptyBody |} ""
               state0 in
  _status_code (handler st') = 500%Z
  /\ (exists msg,
        _write_buffer (handler st')
        = [json_dumps
             (JObj [("error",
                     JStr (Py.concat
                             (format_exception "TypeError" msg
                                (stack0 97))))])])
  /\ cache st' = []
  /\ manager_state st' = [].
Proof.
  apply (post_body_not_an_object _ (plain_world "/srv/jupyter")
           binding_manager stack0 0
           {| current_user := true; json_body := EmptyBody |} "" state0).
  - reflexivity.
  - reflexivity.
  - discriminate.
  - discriminate.
Defined.

(** X10. When the path cannot be resolved because url2localpath raises an
    HTTPError whose status allows a body (the resolver of a composite
    manager answers 404 for a path outside the root or without a matching
    manager), the manager is not called and nothing is cached; the response
    has the status code of the error, its reason as the [error] field
    (null when it has none) and its [error_code] when it has one. *)
Theorem post_resolution_failure_skips_manager :
  forall (MS : Type) (w : World) (mgr : JupyterDrivesManager MS)
         (stack : nat -> list string) (self : Handler) (req : Request)
         (path : string) (st : ServerState MS) (items : list (string * json))
         (dn md : json) (status_code : Z) (reason : option string)
         (error_code : option json),
    _finished (handler st) = false ->
    current_user req = true ->
    json_body req = JsonValue (JObj items) ->
    dict_get "drive_name" items = Some dn ->
    dict_get "mount_drive" items = Some md ->
    (url2localpath w (cache st) (self, path, Omitted)).1
      = Raise (HTTPError status_code reason error_code) ->
    allows_body status_code = true ->
    let st' := execute_post w mgr stack self req path st in
    manager_state st' = manager_state st
    /\ cache st' = cache st
    /\ _status_code (handler st') = status_code
    /\ _write_buffer (handler st')
       = [json_dumps
            (JObj (("error", from_option JStr JNull reason)
                   :: match error_code with
                      | Some code => [("error_code", code)]
                      | None => []
                      end))].
Proof.
  intros MS w mgr stack self req path st items dn md sc reason code Hfin Hu
    Hb Hdn Hmd Hraise Hbody st'.
  pose proof Hraise as Hraise'. unfold url2localpath in Hraise'.
  apply lru_cache_raise in Hraise' as (_ & _ & Hc).
  fold (url2localpath w (cache st) (self, path, Omitted)) in Hc.
  unfold st', execute_post, post, post_body, get_json_body.
  rewrite Hu, Hb. act_step. rewrite Hdn, Hmd. act_step.
  unfold call_url2localpath.
  destruct (url2localpath w (cache st) (self, path, Omitted)) as [r c'].
  cbn [fst snd] in *. subst r c'. act_step.
  unfold _handle_request_exception, send_error. rewrite Hfin.
  assert (Hne : (sc =? 304)%Z = false).
  { unfold allows_body in Hbody. apply negb_true_iff in Hbody.
    by apply orb_false_iff in Hbody as [_ ?]. }
  rewrite Hne. by destruct code.
Qed.

Lemma post_resolution_failure_skips_manager_witness :
  let st' := execute_post hybrid_world binding_manager stack0 0
               mount_request "../x" state0 in
  manager_state st' = []
  /\ cache st' = []
  /\ _status_code (handler st') = 404%Z
  /\ _write_buffer (handler st') = [json_dumps (JObj [("error", JNull)])].
Proof.
  apply (post_resolution_failure_skips_manager _ hybrid_world binding_manager
           stack0 0 mount_request "../x" state0
           [("drive_name", JStr "bucket-a"); ("mount_drive", JBool true)]
           (JStr "bucket-a") (JBool true) 404 None None); reflexivity.
Defined.

(** X11. When the manager raises an HTTPError whose status allows a body,
    the response has the status code of that error, its reason as the
    [error] field (null when it has none) and its [error_code] when it has
    one; the state the manager left is kept. *)
Theorem manager_http_error_is_passed_on :
  forall (MS : Type) (w : World) (mgr : JupyterDrivesManager MS)
         (stack : nat -> list string) (self : Handler) (req : Request)
         (path : string) (st : ServerState MS) (items : list (string * json))
         (dn md : json) (lp : Resolved) (c' : Cache Key Resolved)
         (status_code : Z) (reason : option string)
         (error_code : option json),
    _finished (handler st) = false ->
    current_user req = true ->
    json_body req = JsonValue (JObj items) ->
    dict_get "drive_name" items = Some dn ->
    dict_get "mount_drive" items = Some md ->
    url2localpath w (cache st) (self, path, Omitted) = (Return lp, c') ->
    let call := if truthy md then mount_drive mgr else unmount_drive mgr in
    (call dn (local_path_of lp) (manager_state st)).1
      = Raise (HTTPError status_code reason error_code) ->
    allows_body status_code = true ->
    let st' := execute_post w mgr stack self req path st in
    _status_code (handler st') = status_code
    /\ _write_buffer (handler st')
       = [json_dumps
            (JObj (("error", from_option JStr JNull reason)
                   :: match error_code with
                      | Some code => [("error_code", code)]
                      | None => []
                      end))]
    /\ manager_state st'
       = (call dn (local_path_of lp) (manager_state st)).2.
Proof.
  intros MS w mgr stack self req path st items dn md lp c' sc reason code
    Hfin Hu Hb Hdn Hmd Hlp call Hraise Hbody st'.
  unfold st', execute_post.
  rewrite (post_dispatches_then_raises w mgr stack self req path st items
             dn md lp c' Hu Hb Hdn Hmd Hlp).
  cbn zeta. fold call. rewrite Hraise. cbn [handler cache manager_state].
  unfold _handle_request_exception, send_error. rewrite Hfin.
  assert (Hne : (sc =? 304)%Z = false).
  { unfold allows_body in Hbody. apply negb_true_iff in Hbody.
    by apply orb_false_iff in Hbody as [_ ?]. }
  rewrite Hne. by destruct code.
Qed.

Lemma manager_http_error_is_passed_on_witness :
  let st' := execute_post (plain_world "/srv/jupyter") refusing_manager
               stack0 0 mount_request ""
               {| handler := new_handler settings0; cache := [];
                  manager_state := 0 |} in
  _status_code (handler st') = 404%Z
  /\ _write_buffer (handler st')
     = [json_dumps (JObj [("error", JStr "Drive not found");
                          ("error_code", JStr "E_DRIVE")])]
  /\ manager_state st' = 1.
Proof.
  exact (manager_http_error_is_passed_on _ (plain_world "/srv/jupyter")
           refusing_manager stack0 0 mount_request ""
           {| handler := new_handler settings0; cache := [];
              manager_state := 0 |}
           [("drive_name", JStr "bucket-a"); ("mount_drive", JBool true)]
           (JStr "bucket-a") (JBool true) (LocalPath "/srv/jupyter/")
           [((0, "", Omitted), LocalPath "/srv/jupyter/")]
           404 (Some "Drive not found") (Some (JStr "E_DRIVE"))
           eq_refl eq_refl eq_refl eq_refl eq_refl eq_refl eq_refl eq_refl).
Defined.

(** ** setup_handlers: the other outcomes *)

Section SetupOutcomes.
Context {Config Manager : Type}.
Variable MANAGERS : gmap string (EntryPoint Config Manager).
Variable DrivesConfig_provider : Config -> string.

(** Whatever happens, setup_handlers keeps the settings, the rules already
    installed and the log records already written; and when it raises, the
    application is exactly as before. *)
Lemma setup_handlers_preserves (config : Config) (log : option Logger)
    (st : SetupState Manager) :
  let r := setup_handlers MANAGERS DrivesConfig_provider config log st in
  app_settings (web_app r.2) = app_settings (web_app st)
  /\ app_handlers (web_app st) `prefix_of` app_handlers (web_app r.2)
  /\ records st `prefix_of` records r.2
  /\ (forall e, r.1 = Raise e -> web_app r.2 = web_app st).
Proof.
  unfold setup_handlers, settings_base_url, emit, add_handlers, mbind,
    Act_bind, lift, mret, Act_ret.
  destruct (base_url (app_settings (web_app st))) as [url|]; [|done].
  destruct (MANAGERS !! DrivesConfig_provider config) as [ep|].
  - destruct (load ep) as [e|f]; [done|].
    destruct (construct f config) as [e|m].
    + destruct (except_Exception e); cbn; repeat split; try done;
        try (by eexists); rewrite <- ?(assoc_L (++)); by eexists.
    + cbn. repeat split; try done; try (by eexists).
      rewrite <- (assoc_L (++)). by eexists.
  - cbn. repeat split; try done. by eexists.
Qed.

End SetupOutcomes.

(** X14. Whatever the registry, the configuration and the outcome,
    setup_handlers keeps the settings of the application, the rules
    installed before and the log records written before; and whenever it
    raises, the application is exactly as it was: no rule is installed by a
    failed setup. *)
Theorem setup_handlers_is_all_or_nothing :
  forall (Config Manager : Type)
         (MANAGERS : gmap string (EntryPoint Config Manager))
         (DrivesConfig_provider : Config -> string) (config : Config)
         (log : option Logger) (st : SetupState Manager),
    let r := setup_handlers MANAGERS DrivesConfig_provider config log st in
    app_settings (web_app r.2) = app_settings (web_app st)
    /\ app_handlers (web_app st) `prefix_of` app_handlers (web_app r.2)
    /\ records st `prefix_of` records r.2
    /\ (forall e, r.1 = Raise e -> web_app r.2 = web_app st).
Proof. intros. apply setup_handlers_preserves. Qed.

(** X15. When the provider is registered and its class loads and constructs,
    setup_handlers returns after adding one group of rules under the host
    pattern ".*$", behind the rules already there: the list handler at
    [<base_url>/jupyter-drives/drives] and the mount handler at
    [<base_url>/jupyter-drives/mount-drive], both initialised with the same
    manager instance and the same logger (the one passed, else the logger
    of the module). It logs the class at info level and the rules at debug
    level. *)
Theorem setup_handlers_installs_both_handlers :
  forall (Config Manager : Type)
         (MANAGERS : gmap string (EntryPoint Config Manager))
         (DrivesConfig_provider : Config -> string) (config : Config)
         (log : option Logger) (st : SetupState Manager) (url : string)
         (entry_point : EntryPoint Config Manager)
         (manager_factory : Factory Config Manager) (manager : Manager),
    base_url (app_settings (web_app st)) = Some url ->
    MANAGERS !! DrivesConfig_provider config = Some entry_point ->
    load entry_point = Return manager_factory ->
    construct manager_factory config = Return manager ->
    let logger := default module_logger log in
    let prefix := JupyterUtils.url_path_join url ["jupyter-drives"] in
    let rules :=
      [{| rule_pattern := JupyterUtils.url_path_join prefix ["drives"];
          rule_handler := ListJupyterDrivesHandler;
          rule_logger := logger; rule_manager := manager |};
       {| rule_pattern := JupyterUtils.url_path_join prefix ["mount-drive"];
          rule_handler := MountJupyterDriveHandler;
          rule_logger := logger; rule_manager := manager |}] in
    setup_handlers MANAGERS DrivesConfig_provider config log st =
    (Return tt,
     {| web_app :=
          {| app_settings := app_settings (web_app st);
             app_handlers :=
               (app_handlers (web_app st) ++ [(".*$", rules)])%list |};
        records :=
          (records st ++
           [{| rec_logger := logger; rec_level := INFO;
               rec_msg := Msg ("JupyterDrives Manager Class "
                               +:+ factory_str manager_factory);
               rec_exc_info := None |};
            {| rec_logger := logger; rec_level := DEBUG;
               rec_msg := MsgHandlers rules;
               rec_exc_info := None |}])%list |}).
Proof.
  intros Config Manager MANAGERS provider_of config log st url ep f m
    Hurl Hep Hload Hcons logger prefix rules.
  unfold setup_handlers, settings_base_url, emit, add_handlers, mbind,
    Act_bind, lift, mret, Act_ret.
  rewrite Hurl, Hep, Hload, Hcons. cbn.
  by rewrite <- (assoc_L (++)).
Qed.

Lemma setup_handlers_installs_both_handlers_witness :
  setup_handlers registry0 id "local-test" (Some "ServerApp") setup0 =
  (Return tt,
   {| web_app :=
        {| app_settings := settings0;
           app_handlers :=
             [(".*$",
               [{| rule_pattern := "/jupyter-drives/drives";
                   rule_handler := ListJupyterDrivesHandler;
                   rule_logger := "ServerApp"; rule_manager := 1 |};
                {| rule_pattern := "/jupyter-drives/mount-drive";
                   rule_handler := MountJupyterDriveHandler;
                   rule_logger := "ServerApp"; rule_manager := 1 |}])] |};
      records :=
        [{| rec_logger := "ServerApp"; rec_level := INFO;
            rec_msg :=
              Msg "JupyterDrives Manager Class <class 'LocalTestManager'>";
            rec_exc_info := None |};
         {| rec_logger := "ServerApp"; rec_level := DEBUG;
            rec_msg :=
              MsgHandlers
                [{| rule_pattern := "/jupyter-drives/drives";
                    rule_handler := ListJupyterDrivesHandler;
                    rule_logger := "ServerApp"; rule_manager := 1 |};
                 {| rule_pattern := "/jupyter-drives/mount-drive";
                    rule_handler := MountJupyterDriveHandler;
                    rule_logger := "ServerApp"; rule_manager := 1 |}];
            rec_exc_info := None |}] |}).
Proof.
  apply (setup_handlers_installs_both_handlers string nat registry0 id
           "local-test" (Some "ServerApp") setup0 "/"
           {| load := Return {| factory_str := "<class 'LocalTestManager'>";
                                construct := fun _ => Return 1 |} |}
           {| factory_str := "<class 'LocalTestManager'>";
              construct := fun _ => Return 1 |} 1).
  - reflexivity.
  - vm_compute. reflexivity.
  - reflexivity.
  - reflexivity.
Defined.

(** X16. When the settings of the application have no [base_url],
    setup_handlers raises KeyError at once: the provider is not looked up,
    nothing is logged and nothing is installed, also when the registry has
    no entry for the provider. *)
Theorem setup_handlers_needs_base_url :
  forall (Config Manager : Type)
         (MANAGERS : gmap string (EntryPoint Config Manager))
         (DrivesConfig_provider : Config -> string) (config : Config)
         (log : option Logger) (st : SetupState Manager),
    base_url (app_settings (web_app st)) = None ->
    setup_handlers MANAGERS DrivesConfig_provider config log st
    = (Raise (PyError "KeyError" "'base_url'" []), st).
Proof.
  intros Config Manager MANAGERS provider_of config log st Hnone.
  unfold setup_handlers, settings_base_url, mbind, Act_bind.
  by rewrite Hnone.
Qed.

Lemma setup_handlers_needs_base_url_witness :
  setup_handlers registry0 id "s3" None
    {| web_app :=
         {| app_settings := {| base_url := None; serve_traceback := false |};
            app_handlers := [] |};
       records := [] |}
  = (Raise (PyError "KeyError" "'base_url'" []),
     {| web_app :=
          {| app_settings := {| base_url := None; serve_traceback := false |};
             app_handlers := [] |};
        records := [] |}).
Proof.
  exact (setup_handlers_needs_base_url string nat registry0 id "s3" None
           {| web_app :=
                {| app_settings :=
                     {| base_url := None; serve_traceback := false |};
                   app_handlers := [] |};
              records := [] |} eq_refl).
Defined.

(** X17. When loading the entry point raises, setup_handlers raises that
    exception without logging anything and without installing a rule: the
    load is outside the try block. *)
Theorem entry_point_load_failure_is_not_logged :
  forall (Config Manager : Type)
         (MANAGERS : gmap string (EntryPoint Config Manager))
         (DrivesConfig_provider : Config -> string) (config : Config)
         (log : option Logger) (st : SetupState Manager) (url : string)
         (entry_point : EntryPoint Config Manager) (err : Exception),
    base_url (app_settings (web_app st)) = Some url ->
    MANAGERS !! DrivesConfig_provider config = Some entry_point ->
    load entry_point = Raise err ->
    setup_handlers MANAGERS DrivesConfig_provider config log st
    = (Raise err, st).
Proof.
  intros Config Manager MANAGERS provider_of config log st url ep err
    Hurl Hep Hload.
  unfold setup_handlers, settings_base_url, mbind, Act_bind, lift.
  by rewrite Hurl, Hep, Hload.
Qed.

Lemma entry_point_load_failure_is_not_logged_witness :
  setup_handlers
    ({[ "s3" := {| load := Raise (PyError "ImportError" "No module named boto3" []) |} ]}
       : gmap string (EntryPoint string nat))
    id "s3" None setup0
  = (Raise (PyError "ImportError" "No module named boto3" []), setup0).
Proof.
  apply (entry_point_load_failure_is_not_logged string nat _ id "s3" None
           setup0 "/"
           {| load := Raise (PyError "ImportError" "No module named boto3" []) |}).
  - reflexivity.
  - vm_compute. reflexivity.
  - reflexivity.
Defined.

(** X18. When the constructor of the manager class raises, the log gets the
    info record of the class on the chosen logger and then, for an
    exception that [except Exception] catches, one error record with the
    exception attached, written to the root logger and not to the logger
    that was passed; an exception outside [Exception] (KeyboardInterrupt,
    SystemExit) passes without that record. *)
Theorem manager_construction_failure_log :
  forall (Config Manager : Type)
         (MANAGERS : gmap string (EntryPoint Config Manager))
         (DrivesConfig_provider : Config -> string) (config : Config)
         (log : option Logger) (st : SetupState Manager) (url : string)
         (entry_point : EntryPoint Config Manager)
         (manager_factory : Factory Config Manager) (err : Exception),
    base_url (app_settings (web_app st)) = Some url ->
    MANAGERS !! DrivesConfig_provider config = Some entry_point ->
    load entry_point = Return manager_factory ->
    construct manager_factory config = Raise err ->
    records (setup_handlers MANAGERS DrivesConfig_provider config log st).2
    = (records st ++
       {| rec_logger := default module_logger log; rec_level := INFO;
          rec_msg := Msg ("JupyterDrives Manager Class "
                          +:+ factory_str manager_factory);
          rec_exc_info := None |}
       :: if except_Exception err
          then [{| rec_logger := root_logger; rec_level := ERROR;
                   rec_msg := Msg "JupyterDrives Manager Exception";
                   rec_exc_info := Some err |}]
          else [])%list.
Proof.
  intros Config Manager MANAGERS provider_of config log st url ep f err
    Hurl Hep Hload Hcons.
  unfold setup_handlers, settings_base_url, emit, mbind, Act_bind, lift.
  rewrite Hurl, Hep, Hload. cbn. rewrite Hcons.
  destruct (except_Exception err); cbn; [|done].
  by rewrite <- (assoc_L (++)).
Qed.

Lemma manager_construction_failure_log_witness :
  records (setup_handlers registry0 id "broken" (Some "ServerApp") setup0).2
  = [{| rec_logger := "ServerApp"; rec_level := INFO;
        rec_msg := Msg "JupyterDrives Manager Class <class 'BrokenManager'>";
        rec_exc_info := None |};
     {| rec_logger := "root"; rec_level := ERROR;
        rec_msg := Msg "JupyterDrives Manager Exception";
        rec_exc_info := Some (PyError "ValueError" "bad credentials" []) |}].
Proof.
  apply (manager_construction_failure_log string nat registry0 id
           "broken" (Some "ServerApp") setup0 "/"
           {| load := Return {| factory_str := "<class 'BrokenManager'>";
                                construct := fun _ =>
                                  Raise (PyError "ValueError"
                                           "bad credentials" []) |} |}
           {| factory_str := "<class 'BrokenManager'>";
              construct := fun _ =>
                Raise (PyError "ValueError" "bad credentials" []) |}
           (PyError "ValueError" "bad credentials" [])).
  - reflexivity.
  - vm_compute. reflexivity.
  - reflexivity.
  - reflexivity.
Defined.

(** ** url2localpath on clean paths *)

(** X5. With a plain contents manager, a clean path (segments that are not
    empty and have no percent sign) resolves to the expanded root, one "/"
    unless the root is empty or already ends in "/", and the path itself,
    character for character. *)
Theorem url2localpath_clean_path :
  forall (w : World) (self : Handler) (path root : string),
    heap w (contents_manager w self) = PlainContentsManager root ->
    clean_path path = true ->
    let r := OsPath.expanduser (environ w) root in
    url2localpath_wrapped w self path false =
    Return (LocalPath
              (if String.eqb r "" || Py.endswith_char Py.sep r
               then r +:+ path else r +:+ "/" +:+ path)).
Proof.
  intros w self path root Hcm Hclean r.
  unfold url2localpath_wrapped. rewrite Hcm.
  destruct (hybridcontents w); cbn; rewrite Hcm; cbn;
    rewrite (url2path_clean_is_identity path Hclean);
    unfold OsPath.join_step;
    rewrite (clean_path_not_absolute path Hclean); reflexivity.
Qed.

Lemma url2localpath_clean_path_witness :
  url2localpath_wrapped (plain_world "~/nb") 0 "work/2024/report.ipynb" false
  = Return (LocalPath "/home/u/nb/work/2024/report.ipynb").
Proof.
  exact (url2localpath_clean_path (plain_world "~/nb") 0
           "work/2024/report.ipynb" "~/nb" eq_refl eq_refl).
Defined.
(** ** url2localpath and the specification's resolver *)

(** *** Percent-decoding *)

Lemma hex_digit_hexval (c : ascii) :
  PathResolver.hex_digit c = Urllib.hexval c.
Proof. destruct c as [[] [] [] [] [] [] [] []]; reflexivity. Qed.

Lemma unquote_not_percent (c : ascii) (r : string) :
  Ascii.eqb c "%"%char = false ->
  Urllib.unquote (String c r) = String c (Urllib.unquote r).
Proof. intros Hc. cbn [Urllib.unquote]. by rewrite Hc. Qed.

Lemma hexval_not_percent (c : ascii) (v : N) :
  Urllib.hexval c = Some v -> Ascii.eqb c "%"%char = false.
Proof.
  destruct (Ascii.eqb c "%"%char) eqn:E; [|done].
  apply Ascii.eqb_eq in E as ->. discriminate.
Qed.

(** What the decoder has read so far, put back in front of the rest. *)
Lemma decode_from_unquote (s : string) :
  PathResolver.decode_from PathResolver.NoEscape s = Urllib.unquote s
  /\ PathResolver.decode_from PathResolver.Percent s
     = Urllib.unquote (String "%" s)
  /\ (forall h v, Urllib.hexval h = Some v ->
        PathResolver.decode_from (PathResolver.PercentDigit h) s
        = Urllib.unquote (String "%" (String h s))).
Proof.
  induction s as [|c r (IH0 & IH1 & IH2)].
  - repeat split. intros h v Hh. cbn.
    by rewrite (hexval_not_percent h v Hh).
  - assert (Hplain :
        (if Ascii.eqb c "%"%char
         then PathResolver.decode_from PathResolver.Percent r
         else String c (PathResolver.decode_from PathResolver.NoEscape r))
        = Urllib.unquote (String c r)).
    { destruct (Ascii.eqb c "%"%char) eqn:Ec.
      - apply Ascii.eqb_eq in Ec as ->. exact IH1.
      - by rewrite unquote_not_percent, IH0. }
    split; [exact Hplain|]. split.
    + cbn [PathResolver.decode_from]. rewrite hex_digit_hexval.
      destruct (Urllib.hexval c) as [v|] eqn:Hc.
      * exact (IH2 c v Hc).
      * rewrite Hplain.
        change (Urllib.unquote (String "%" (String c r)))
          with (match r with
                | String l r' =>
                    match Urllib.hexval c, Urllib.hexval l with
                    | Some hv, Some lv =>
                        String (ascii_of_N (16 * hv + lv)) (Urllib.unquote r')
                    | _, _ => String "%" (Urllib.unquote (String c r))
                    end
                | _ => String "%" (Urllib.unquote (String c r))
                end).
        rewrite Hc. by destruct r.
    + intros h v Hh. cbn [PathResolver.decode_from].
      rewrite !hex_digit_hexval, Hh, Hplain.
      change (Urllib.unquote (String "%" (String h (String c r))))
        with (match Urllib.hexval h, Urllib.hexval c with
              | Some hv, Some lv =>
                  String (ascii_of_N (16 * hv + lv)) (Urllib.unquote r)
              | _, _ =>
                  String "%" (Urllib.unquote (String h (String c r)))
              end).
      rewrite Hh. destruct (Urllib.hexval c) as [lv|]; [by rewrite IH0|].
      by rewrite (unquote_not_percent h _ (hexval_not_percent h v Hh)).
Qed.

Lemma percent_decode_unquote (s : string) :
  PathResolver.percent_decode s = Urllib.unquote s.
Proof. apply decode_from_unquote. Qed.

(** *** Joining *)

Lemma join_onto_join_step (root rel : string) :
  PathResolver.join_onto root rel = OsPath.join_step root rel.
Proof.
  unfold PathResolver.join_onto, PathResolver.with_separator,
    OsPath.join_step.
  destruct (Py.startswith_char Py.sep rel); [done|].
  destruct (String.eqb root "") eqn:Er.
  - by apply String.eqb_eq in Er as ->.
  - cbn [orb]. destruct (Py.endswith_char Py.sep root); [done|].
    apply append_assoc.
Qed.

Lemma join_segments_fold (l : list string) :
  PathResolver.join_segments (rev l) = fold_left OsPath.join_step l "".
Proof.
  induction l as [|b l IH] using rev_ind; [done|].
  rewrite rev_app_distr, fold_left_app. cbn [rev app fold_left].
  cbn [PathResolver.join_segments]. by rewrite IH, join_onto_join_step.
Qed.

Lemma join_step_empty (b : string) : OsPath.join_step "" b = b.
Proof. unfold OsPath.join_step. by destruct (Py.startswith_char Py.sep b). Qed.

Lemma decode_path_url2path (path : string) :
  PathResolver.decode_path path = JupyterUtils.url2path path.
Proof.
  unfold PathResolver.decode_path, JupyterUtils.url2path, Py.split.
  destruct (Py.split_char Py.sep path) as [h t].
  rewrite join_segments_fold. cbn [map fold_left].
  rewrite join_step_empty, percent_decode_unquote. unfold OsPath.join.
  f_equal. apply map_ext. intros x. apply percent_decode_unquote.
Qed.

(** *** User-home shorthand *)

Lemma break_at_sep_app (s : string) :
  s = (PathResolver.break_at_sep s).1 +:+ (PathResolver.break_at_sep s).2.
Proof.
  induction s as [|a s IH]; [done|]. cbn [PathResolver.break_at_sep].
  destruct (Ascii.eqb a Py.sep); [done|].
  destruct (PathResolver.break_at_sep s) as [name tail]. cbn [fst snd] in *.
  change (String a name +:+ tail) with (String a (name +:+ tail)).
  by rewrite <- IH.
Qed.

Lemma find_sep_from_break (k : nat) (s : string) :
  OsPath.find_sep_from k s
  = k + String.length (PathResolver.break_at_sep s).1.
Proof.
  revert k; induction s as [|a s IH]; intros k; cbn; [lia|].
  destruct (Ascii.eqb a Py.sep); cbn; [lia|].
  rewrite IH. destruct (PathResolver.break_at_sep s). cbn. lia.
Qed.

Lemma substring_prefix (name tail : string) :
  String.substring 0 (String.length name) (name +:+ tail) = name.
Proof.
  induction name as [|a name IH]; [by destruct tail|].
  change (String a name +:+ tail) with (String a (name +:+ tail)).
  cbn. by rewrite IH.
Qed.

Lemma substring_all (s : string) :
  String.substring 0 (String.length s) s = s.
Proof. induction s as [|a s IH]; [done|]. cbn. by rewrite IH. Qed.

Lemma substring_suffix (name tail : string) :
  String.substring (String.length name) (String.length tail) (name +:+ tail)
  = tail.
Proof.
  induction name as [|a name IH]; [apply substring_all|].
  change (String a name +:+ tail) with (String a (name +:+ tail)).
  cbn. exact IH.
Qed.

Lemma length_append (a b : string) :
  String.length (a +:+ b) = String.length a + String.length b.
Proof.
  induction a as [|x a IH]; [done|].
  change (String x a +:+ b) with (String x (a +:+ b)). cbn. by rewrite IH.
Qed.

Lemma expand_home_expanduser (env : OsPath.Environ) (root : string) :
  PathResolver.expand_home env root = OsPath.expanduser env root.
Proof.
  destruct root as [|a rest]; [done|].
  unfold PathResolver.expand_home, OsPath.expanduser.
  destruct (Ascii.eqb a "~"%char); [|done].
  pose proof (break_at_sep_app rest) as Happ.
  pose proof (find_sep_from_break 1 rest) as Hfind.
  destruct (PathResolver.break_at_sep rest) as [name tail].
  cbn [fst snd] in *. cbn zeta. rewrite Hfind.
  assert (Hname :
    String.substring 1 (1 + String.length name - 1) (String a rest) = name).
  { replace (1 + String.length name - 1) with (String.length name) by lia.
    cbn [String.substring]. rewrite Happ. apply substring_prefix. }
  assert (Htail :
    String.substring (1 + String.length name)
      (String.length (String a rest) - (1 + String.length name))
      (String a rest) = tail).
  { cbn [String.length Nat.add Nat.sub String.substring].
    replace (String.length rest - String.length name)
      with (String.length tail)
      by (rewrite Happ, length_append; lia).
    rewrite Happ. apply substring_suffix. }
  rewrite Hname, Htail. unfold PathResolver.home_of.
  assert (Heqb : String.eqb name "" = Nat.eqb (1 + String.length name) 1).
  { by destruct name. }
  rewrite Heqb.
  destruct (Nat.eqb (1 + String.length name) 1);
    [destruct (OsPath.env_HOME env) as [home|];
       [|destruct (OsPath.pw_self env) as [home|]]
    | destruct (OsPath.pw_dir env name) as [home|]];
    try done;
    by destruct (Py.rstrip_char Py.sep home +:+ tail).
Qed.

(** *** The function and the resolver *)

Lemma url2localpath_wrapped_resolve (w : World) (self : Handler)
    (path : string) (b : bool) :
  url2localpath_wrapped w self path b =
  match PathResolver.resolve w self path with
  | Raise e => Raise e
  | Return (local_path, cm) =>
      Return (if b then LocalPathCM local_path cm else LocalPath local_path)
  end.
Proof.
  unfold url2localpath_wrapped, PathResolver.resolve,
    PathResolver.find_backing_root.
  assert (Hjoin : forall root rel,
    OsPath.join (OsPath.expanduser (environ w) root)
      [JupyterUtils.url2path rel]
    = PathResolver.join_onto (PathResolver.expand_home (environ w) root)
        (PathResolver.decode_path rel)).
  { intros root rel.
    by rewrite join_onto_join_step, expand_home_expanduser,
      decode_path_url2path. }
  destruct (heap w (contents_manager w self)) as [r|r managers] eqn:Hcm.
  - destruct (hybridcontents w);
      cbn -[OsPath.join OsPath.expanduser JupyterUtils.url2path
            PathResolver.join_onto PathResolver.expand_home
            PathResolver.decode_path];
      by rewrite Hjoin.
  - destruct (hybridcontents w) as [lib|].
    + destruct (_resolve_path lib path managers) as [e|[[prefix sub] rest]];
        cbn -[OsPath.join OsPath.expanduser JupyterUtils.url2path
              PathResolver.join_onto PathResolver.expand_home
              PathResolver.decode_path];
        [done|]. by rewrite Hjoin.
    + cbn -[OsPath.join OsPath.expanduser JupyterUtils.url2path
            PathResolver.join_onto PathResolver.expand_home
            PathResolver.decode_path].
      by rewrite Hjoin.
Qed.

Lemma run_calls_fixed_world_cache (w : World) (keys : list Key)
    (c : Cache Key Resolved) :
  Forall (fun kv => url2localpath_uncached w kv.1 = Return kv.2) c ->
  Forall (fun kv => url2localpath_uncached w kv.1 = Return kv.2)
    (run_calls c (map (pair w) keys)).2.
Proof.
  revert c; induction keys as [|k keys IH]; intros c Hc; [done|].
  cbn [map run_calls].
  destruct (lru_cache_agrees default_maxsize (url2localpath_uncached w) c k Hc)
    as [_ Hc'].
  unfold url2localpath.
  destruct (lru_cache default_maxsize (url2localpath_uncached w) c k)
    as [res c'].
  cbn [snd] in Hc'. specialize (IH c' Hc').
  by destruct (run_calls c' (map (pair w) keys)).
Qed.

(** C7. Under a fixed configuration, whatever calls came before, the
    memoized url2localpath returns for every logical path what the
    resolver of the specification computes: the manager is the one the
    multi-root resolver finds by the path prefix under a composite manager,
    with the prefix stripped from the path, and the default manager
    otherwise; the user-home shorthand in that manager's [root_dir] is
    expanded; and the percent-decoded segments of the path are joined onto
    the expanded root (a decoded path that is absolute replaces it), that
    is [os.path.join(expanduser(cm.root_dir), url2path(path))]. It raises
    exactly what the multi-root resolver raises. *)
Theorem url2localpath_computes_resolution :
  forall (w : World) (earlier : list Key) (self : Handler) (path : string)
         (a : CwmArg),
    (url2localpath w (run_calls [] (map (pair w) earlier)).2
       (self, path, a)).1
    = match PathResolver.resolve w self path with
      | Raise e => Raise e
      | Return (local_path, cm) =>
          Return (if cwm_value a then LocalPathCM local_path cm
                  else LocalPath local_path)
      end.
Proof.
  intros w earlier self path a.
  pose proof (run_calls_fixed_world_cache w earlier [] ltac:(constructor))
    as Hc.
  unfold url2localpath.
  destruct (lru_cache_agrees default_maxsize (url2localpath_uncached w)
              _ (self, path, a) Hc) as [-> _].
  apply url2localpath_wrapped_resolve.
Qed.

Example resolver_on_escapes :
  PathResolver.resolve (plain_world "~ann/nb") 0 "a%2Fb/%7Ec/x%zz%4"
  = Return ("/home/ann/nb/a/b/~c/x%zz%4", 0).
Proof. reflexivity. Qed.
